(** * plotly_group: grouping the values of a series into intervals

    A shallow embedding of [plot_group] (src/plotly_group.py): the checks on
    the series and on the bar colour, the resolution of the intervals (the
    default ones, derived from the 80th percentile, or the caller's, after
    validation), the grouping of the values into a dictionary of bins, and
    the calls that build and deliver the chart.

    Conventions of the embedding.
    - A Python [int] is a [Z], a [bool] a [bool].  A [float] is written as a
      decimal literal (sign, integer digits, fraction digits) and stands
      for the binary64 number nearest to it, as Python reads a literal:
      [value] gives that binary64 number as a rational.  Python prints a
      float as the shortest literal that reads back to it; a literal for
      which this holds, and which Python prints without an exponent
      (magnitude from 1e-4 up to 1e16, or zero), satisfies [printed].
    - An arithmetic operation on floats is the exact operation followed by
      one rounding to binary64 ([fl], nearest, ties to even).  Overflow,
      subnormal results, infinities and NaN are outside the model, and so
      is the sign of a zero, except where the rounding of the default
      intervals produces one.  The statements name the numbers on which
      the embedding is the program: [plain_value] and [numeric_series] for
      the values of the series, [plain_bound] and [held_row] for the
      bounds of the intervals.
    - A comparison made by Python itself (line 201) is exact; a comparison
      made by numpy (lines 226 and 232) converts both operands to binary64
      as soon as one of them is a float.
    - Exceptions are values of type [exn]; a computation that may raise
      returns [result].  The text of a message is a list of pieces, one per
      literal fragment or formatted value of the f-string that builds it.
    - [np.array], [np.percentile] and [round] on a numpy float are library
      code; they are modelled from numpy's behaviour (releases 1.22 and
      later) on the inputs this function gives them.  What plotly does
      with the chart is not modelled: whether one of its calls raises is a
      parameter of [plot_group]. *)

From Stdlib Require Import ZArith QArith Qround Qpower Qabs List String Ascii Bool.
From Stdlib Require Import Lia Lqa Morphisms.
From Stdlib Require Import Decimal DecimalString DecimalN DecimalZ.
Import ListNotations.

#[local] Open Scope list_scope.
#[local] Open Scope string_scope.

(** ** Binary64 *)

Definition Qlt_bool (a b : Q) : bool := negb (Qle_bool b a).

(** Rounding to the nearest integer, ties to even ([np.rint]). *)
Definition rint (x : Q) : Z :=
  let f := Qfloor x in
  match ((x - inject_Z f) ?= (1 # 2))%Q with
  | Lt => f
  | Gt => (f + 1)%Z
  | Eq => if Z.even f then f else (f + 1)%Z
  end.

(** [floor (log2 x)] for [0 < x]. *)
Definition ilog2 (x : Q) : Z :=
  let e0 := (Z.log2 (Qnum x) - Z.log2 (Zpos (Qden x)))%Z in
  if Qle_bool (2 ^ e0) x then e0 else (e0 - 1)%Z.

(** The number with a 53-bit significand nearest to [x > 0], ties to the
    even significand. *)
Definition fl_pos (x : Q) : Q :=
  let s := (ilog2 x - 52)%Z in
  (inject_Z (rint (x / 2 ^ s)) * 2 ^ s)%Q.

(** Rounding to binary64, in lowest terms. *)
Definition fl (x : Q) : Q :=
  match Qnum x with
  | Z0 => 0
  | Zpos _ => Qred (fl_pos x)
  | Zneg _ => Qred (- fl_pos (- x))
  end.

(** ** Python values *)

(** A float, as a literal: [PyF false 4 (D0 Nil)] is [4.0],
    [PyF true 0 (D3 (D6 Nil))] is [-0.36]. *)
Record pyfloat := PyF { f_neg : bool; f_int : N; f_frac : uint }.

(** The numbers of the program: [bool] is a subclass of [int] in Python, so
    a [bool] passes every [isinstance(_, int)] test of the source. *)
Inductive number :=
| NBool (b : bool)
| NInt (z : Z)
| NFloat (f : pyfloat).

#[warnings="-register-all"]
Inductive pyval :=
| PyNone
| PyNum (n : number)
| PyStr (s : string)
| PyList (l : list pyval)
| PyTuple (l : list pyval)
| PyObj (cls : string).      (* an object of any other class *)

Definition frac_value (d : uint) : Q :=
  inject_Z (Z.of_N (N.of_uint d)) / inject_Z (10 ^ Z.of_nat (nb_digits d)).

Definition float_value (f : pyfloat) : Q :=
  let m := (inject_Z (Z.of_N (f_int f)) + frac_value (f_frac f))%Q in
  if f_neg f then (- m)%Q else m.

Definition int_of_bool (b : bool) : Z := if b then 1%Z else 0%Z.

Definition value (n : number) : Q :=
  match n with
  | NBool b => inject_Z (int_of_bool b)
  | NInt z => inject_Z z
  | NFloat f => fl (float_value f)
  end.

(** [a < b], [a <= b] and [a > b] as Python evaluates them on its own
    numbers: exactly, also between an int and a float. *)
Definition num_lt (a b : number) : bool := Qlt_bool (value a) (value b).
Definition num_le (a b : number) : bool := Qle_bool (value a) (value b).
Definition num_gt (a b : number) : bool := Qlt_bool (value b) (value a).

Definition is_float (n : number) : bool :=
  match n with NFloat _ => true | _ => false end.

(** The operand [n] of a numpy comparison with [other]: when one of the two
    is a float, both are converted to binary64. *)
Definition operand (other n : number) : Q :=
  if is_float other || is_float n then fl (value n) else value n.

(** [x > y] and [x <= y] as numpy evaluates them. *)
Definition np_gt (x y : number) : bool := Qlt_bool (operand x y) (operand y x).
Definition np_le (x y : number) : bool := Qle_bool (operand y x) (operand x y).

(** *** [str] of numbers *)

Definition str_Z (z : Z) : string := NilEmpty.string_of_int (Z.to_int z).

Definition str_nat (n : nat) : string := str_Z (Z.of_nat n).

Definition str_float (f : pyfloat) : string :=
  (if f_neg f then "-" else "")
  ++ NilEmpty.string_of_uint (N.to_uint (f_int f))
  ++ "." ++ NilEmpty.string_of_uint (f_frac f).

Definition str_number (n : number) : string :=
  match n with
  | NBool true => "True"
  | NBool false => "False"
  | NInt z => str_Z z
  | NFloat f => str_float f
  end.

Fixpoint join (sep : string) (l : list string) : string :=
  match l with
  | [] => ""
  | [s] => s
  | s :: rest => s ++ sep ++ join sep rest
  end.

(** [str] of a tuple of numbers with at least two elements. *)
Definition str_tuple (l : list number) : string :=
  "(" ++ join ", " (map str_number l) ++ ")".

Definition class_name (v : pyval) : string :=
  match v with
  | PyNone => "NoneType"
  | PyNum (NBool _) => "bool"
  | PyNum (NInt _) => "int"
  | PyNum (NFloat _) => "float"
  | PyStr _ => "str"
  | PyList _ => "list"
  | PyTuple _ => "tuple"
  | PyObj cls => cls
  end.

(** [f'{type(v)}'] *)
Definition str_type (v : pyval) : string := "<class '" ++ class_name v ++ "'>".

(** ** Exceptions *)

(** One piece of a message: literal text, or the [str] of a value. *)
Inductive piece :=
| Lit (s : string)
| Val (v : pyval)                       (* str of a Python object *)
| Row (r : number * number)             (* str of a row of a numeric array *)
| ArrItem (src : list pyval) (i : nat)  (* str of item i of np.array(src) *)
| ArrItemType (src : list pyval) (i : nat)  (* str of the type of that item *)
| ArrItemLen (src : list pyval) (i : nat).  (* str of the length of that item *)

Definition message := list piece.

Inductive exn :=
| TypeError (m : message)
| ValueError (m : message)
| NameError (m : message)
| IndexError (m : message).

Inductive result (A : Type) :=
| Ok (a : A)
| Raise (e : exn).
Arguments Ok {A} a.
Arguments Raise {A} e.

Definition bind {A B : Type} (r : result A) (k : A -> result B) : result B :=
  match r with
  | Ok a => k a
  | Raise e => Raise e
  end.

Notation "x <- r ;; k" := (bind r (fun x => k))
  (at level 61, r at next level, right associativity).

(** ** The numpy functions the source calls *)

Fixpoint insert_sorted (x : Q) (l : list Q) : list Q :=
  match l with
  | [] => [x]
  | y :: l' => if Qle_bool x y then x :: l else y :: insert_sorted x l'
  end.

Definition sort (l : list Q) : list Q := fold_right insert_sorted [] l.

Definition index_error : exn :=
  IndexError [Lit "index -1 is out of bounds for axis 0 with size 0"].

(** numpy's interpolation between two neighbours [a] and [b] at the
    fraction [t]: [a + (b - a) * t], replaced by [b - (b - a) * (1 - t)]
    where [t >= 0.5].  The difference is taken on the elements as they are
    (exactly, for an int64 array) and then used as a float. *)
Definition lerp (a b t : Q) : Q :=
  let d := fl (b - a) in
  if Qle_bool (1 # 2) t then fl (fl b - fl (d * fl (1 - t)))
  else fl (fl a + fl (d * t)).

(** [np.percentile(a, q)], default method (linear interpolation): the value
    at the virtual index [(n-1) * (q/100)] of the sorted data, interpolated
    between its two neighbours, all in binary64.  On empty data numpy 1.22
    and later raise [IndexError] (earlier releases return NaN). *)
Definition np_percentile (a : list Q) (q : Q) : result Q :=
  match a with
  | [] => Raise index_error
  | _ =>
    let s := sort a in
    let n := List.length a in
    let virt := fl (inject_Z (Z.of_nat n - 1) * fl (q / 100)) in
    let prev := Qfloor virt in
    let gamma := fl (virt - inject_Z prev) in
    let lo := nth (Z.to_nat prev) s 0%Q in
    let hi := nth (Nat.min (Z.to_nat prev + 1) (n - 1)) s 0%Q in
    Ok (lerp lo hi gamma)
  end.

Definition digit (d : Z) (rest : uint) : uint :=
  match d with
  | 0%Z => D0 rest | 1%Z => D1 rest | 2%Z => D2 rest | 3%Z => D3 rest
  | 4%Z => D4 rest | 5%Z => D5 rest | 6%Z => D6 rest | 7%Z => D7 rest
  | 8%Z => D8 rest | _ => D9 rest
  end.

(** The fraction digits of [f / 1000] for [0 <= f < 1000]: as few as
    possible, at least one, as Python prints floats. *)
Definition milli_digits (f : Z) : uint :=
  let d1 := (f / 100)%Z in
  let d2 := ((f / 10) mod 10)%Z in
  let d3 := (f mod 10)%Z in
  if (d3 =? 0)%Z
  then if (d2 =? 0)%Z then digit d1 Nil else digit d1 (digit d2 Nil)
  else digit d1 (digit d2 (digit d3 Nil)).

(** The literal of [k / 1000]; below 15 digits it is the one Python prints
    for the float nearest to [k / 1000]. *)
Definition float_of_milli (k : Z) : pyfloat :=
  let a := Z.abs k in
  PyF (k <? 0)%Z (Z.to_N (a / 1000)) (milli_digits (a mod 1000)).

Definition neg_zero_float : pyfloat := PyF true 0 (D0 Nil).

(** [round(x, 3)] on a numpy float [x]: [rint(x * 1000) / 1000], where a
    negative [x] that rounds to zero gives [-0.0]. *)
Definition round3 (x : Q) : pyfloat :=
  let k := rint (fl (x * 1000)) in
  if (k =? 0)%Z && Qlt_bool x 0 then neg_zero_float else float_of_milli k.

Definition float_of_Z (z : Z) : pyfloat := PyF (z <? 0)%Z (Z.abs_N z) (D0 Nil).

(** The int64 [z] converted to float64: an integer again. *)
Definition round_int (z : Z) : Z := Qfloor (fl (inject_Z z)).

(** *** Arrays *)

Inductive dtype := DBool | DInt | DFloat.

Definition dtype_of (n : number) : dtype :=
  match n with NBool _ => DBool | NInt _ => DInt | NFloat _ => DFloat end.

Definition dtype_max (a b : dtype) : dtype :=
  match a, b with
  | DFloat, _ | _, DFloat => DFloat
  | DInt, _ | _, DInt => DInt
  | DBool, DBool => DBool
  end.

Definition interval := (number * number)%type.

(** The common type numpy finds for the elements, all ints being within
    int64. *)
Definition result_type (rows : list interval) : dtype :=
  fold_right (fun r t => dtype_max (dtype_max (dtype_of (fst r)) (dtype_of (snd r))) t)
             DBool rows.

(** The element [n] in an array of type [t].  An int becomes the nearest
    float; its literal is the one Python prints below 1e16. *)
Definition cast (t : dtype) (n : number) : number :=
  match t, n with
  | DInt, NBool b => NInt (int_of_bool b)
  | DFloat, NBool b => NFloat (float_of_Z (int_of_bool b))
  | DFloat, NInt z => NFloat (float_of_Z (round_int z))
  | _, _ => n
  end.

Definition cast_rows (rows : list interval) : list interval :=
  let t := result_type rows in
  map (fun r => (cast t (fst r), cast t (snd r))) rows.

Inductive ndarray :=
| Arr2 (rows : list interval)   (* an n x 2 array of one numeric dtype *)
| ArrObj (items : list pyval)   (* a 1-d object array holding the items themselves *)
| ArrOther (src : list pyval).  (* any other array built from src *)

Definition as_pair (v : pyval) : option interval :=
  match v with
  | PyList [PyNum a; PyNum b] | PyTuple [PyNum a; PyNum b] => Some (a, b)
  | _ => None
  end.

Fixpoint all_pairs (l : list pyval) : option (list interval) :=
  match l with
  | [] => Some []
  | v :: l' =>
    match as_pair v, all_pairs l' with
    | Some r, Some rows => Some (r :: rows)
    | _, _ => None
    end
  end.

Definition seq_len (v : pyval) : option nat :=
  match v with
  | PyList l | PyTuple l => Some (List.length l)
  | _ => None
  end.

Definition same_len (a b : option nat) : bool :=
  match a, b with
  | Some n, Some m => Nat.eqb n m
  | None, None => true
  | _, _ => false
  end.

(** The items are not all sequences of one length, nor all scalars. *)
Definition top_ragged (l : list pyval) : bool :=
  match l with
  | [] => false
  | v :: rest => negb (forallb (fun w => same_len (seq_len w) (seq_len v)) rest)
  end.

Section Numpy.

(** What [np.array] raises, if anything, on a list that is not a list of
    pairs of numbers.  numpy 1.24 and later raise [ValueError] on ragged
    nested sequences; earlier releases build an object array. *)
Variable np_refuses : list pyval -> option exn.

Definition np_array (l : list pyval) : result ndarray :=
  match all_pairs l with
  | Some rows => Ok (Arr2 (cast_rows rows))
  | None =>
    match np_refuses l with
    | Some e => Raise e
    | None => Ok (if top_ragged l then ArrObj l else ArrOther l)
    end
  end.

End Numpy.

(** ** The program *)

Definition nl : string := String (ascii_of_nat 10) EmptyString.
Definition dq : string := String (ascii_of_nat 34) EmptyString.

(** *** Series check (lines 52-66)

    The argument is a pandas Series or some other object.  The cells of a
    Series are its entries as the loop of line 59 meets them in
    [series.values].  An entry of one of the six classes line 60 accepts
    ([int], [float], [numpy.int32], [numpy.int64], [numpy.float32],
    [numpy.float64]) is a [PyNum]: an [NInt] for the integer classes, an
    [NFloat] for the float classes, an [NBool] for a Python [bool] (a
    subclass of [int]) held by a Series of objects.  An entry of any other
    class is not a [PyNum]: the entries of a Series of dtype bool, int8,
    int16, uint64 or float16, for instance, are [PyObj] with the name of
    their numpy class.  A missing entry (None, NaN) is [PyNone]; [dropna]
    removes it.  The arithmetic that follows is that of float64 and int64:
    a Series of dtype int32 or float32 passes the check but its percentile
    is outside the model. *)
Inductive series_arg :=
| NotSeries (v : pyval)
| Series (cells : list pyval).

Definition dropna (cells : list pyval) : list pyval :=
  filter (fun v => match v with PyNone => false | _ => true end) cells.

Fixpoint check_values (idx : nat) (vals : list pyval) : result (list number) :=
  match vals with
  | [] => Ok []
  | PyNum n :: rest => ns <- check_values (S idx) rest ;; Ok (n :: ns)
  | v :: _ =>
    Raise (ValueError [Lit "Series values must only ";
                       Lit ("contain int or float, " ++ str_type v ++ " ");
                       Lit ("given at index " ++ str_nat idx)])
  end.

Definition check_series (series : series_arg) : result (list number) :=
  match series with
  | NotSeries v =>
    Raise (TypeError [Lit "'series' must be a Pandas Series, ";
                      Lit (str_type v ++ " given")])
  | Series cells => check_values 0 (dropna cells)
  end.

(** *** Bar colour check (lines 76-118) *)

(** [isinstance(val, int) and 0 <= val <= 255] *)
Definition rgb_ok (v : pyval) : bool :=
  match v with
  | PyNum (NBool b) => (0 <=? int_of_bool b)%Z && (int_of_bool b <=? 255)%Z
  | PyNum (NInt z) => (0 <=? z)%Z && (z <=? 255)%Z
  | _ => false
  end.

Definition numbers_of (l : list pyval) : list number :=
  flat_map (fun v => match v with PyNum n => [n] | _ => [] end) l.

Definition check_bar_color (bar_color : pyval) : result string :=
  match bar_color with
  | PyTuple l | PyList l =>
    if negb (List.length l =? 3)%nat then
      Raise (ValueError [Lit "Iterable must contain 3 RGB values,";
                         Lit (" " ++ str_nat (List.length l) ++ " given")])
    else
      let boo := map rgb_ok l in
      if forallb (fun b => b) boo then Ok ("rgb" ++ str_tuple (numbers_of l))
      else Raise (ValueError [Lit "Wrong RGB format, must be ";
                              Lit "3 int values between 0 and 255"])
  | PyStr s => Ok s
  | _ =>
    Raise (TypeError [Lit "bar_color must be a tuple, list or str,";
                      Lit (str_type bar_color ++ " given")])
  end.

(** *** Default intervals (lines 142-169) *)

(** The names the module binds are those of its six imports and
    [plot_group]; [ceil] is not among them, nor is it a builtin. *)
Definition module_ceil : option (Q -> Z) := None.

(** [roundup = lambda x : int(ceil(x/100)) * 100], with the binding of the
    global name [ceil] as a parameter. *)
Definition roundup (ceil : option (Q -> Z)) (x : Q) : result Z :=
  match ceil with
  | None => Raise (NameError [Lit "name 'ceil' is not defined"])
  | Some c => Ok (c (fl (x / 100)) * 100)%Z
  end.

Definition nbr_of_intervals : nat := 5.

Definition int_of (n : number) : Z :=
  match n with
  | NBool b => int_of_bool b
  | NInt z => z
  | NFloat _ => 0%Z
  end.

(** The two ways a bound advances in the [while] loop: by integer addition
    when [percent > nbr_of_intervals], by a sum rounded to 3 decimals
    otherwise. *)
Definition advance_int (interval_unit : Z) (x : number) : number :=
  NInt (int_of x + interval_unit).

Definition neg_zero (n : number) : bool :=
  match n with
  | NFloat f => f_neg f && Qeq_bool (float_value f) 0
  | _ => false
  end.

(** [round(x + interval_unit, 3)]; a sum that is zero is [-0.0] only when
    both terms are. *)
Definition advance_round (interval_unit : pyfloat) (x : number) : number :=
  let s := (value x + value (NFloat interval_unit))%Q in
  if Qeq_bool s 0 then
    NFloat (if neg_zero x && neg_zero (NFloat interval_unit)
            then neg_zero_float else float_of_Z 0)
  else NFloat (round3 (fl s)).

(** [while len(intervals) < nbr_of_intervals]: [todo] is the number of
    intervals still to append. *)
Fixpoint interval_loop (advance : number -> number) (todo : nat)
         (frm to : number) : list pyval :=
  match todo with
  | O => []
  | S k =>
    PyList [PyNum frm; PyNum to]
    :: interval_loop advance k (advance frm) (advance to)
  end.

(** The value of [intervals] when grouping starts: the list the caller
    gave (only the empty list is never converted), or an array. *)
Inductive ivar :=
| IList (l : list pyval)
| IArr (a : ndarray).

Section Program.

Variable np_refuses : list pyval -> option exn.

Definition default_intervals (ceil : option (Q -> Z)) (vals : list number)
  : result (ivar * bool) :=
  percent <- np_percentile (map value vals) 80 ;;
  if Qlt_bool (inject_Z (Z.of_nat nbr_of_intervals)) percent then
    interval_unit <- roundup ceil (fl (percent / inject_Z (Z.of_nat nbr_of_intervals))) ;;
    a <- np_array np_refuses
           (interval_loop (advance_int interval_unit) nbr_of_intervals
                          (NInt 0) (NInt interval_unit)) ;;
    Ok (IArr a, true)
  else
    let interval_unit :=
        round3 (fl (percent / inject_Z (Z.of_nat nbr_of_intervals))) in
    a <- np_array np_refuses
           (interval_loop (advance_round interval_unit) nbr_of_intervals
                          (NInt 0) (NFloat interval_unit)) ;;
    Ok (IArr a, true).

(** *** Intervals check (lines 173-208) *)

(** [intervals[idx]], [type(intervals[idx])] and [len(intervals[idx])] as
    they appear in a message. *)
Definition item_piece (iv : ivar) (idx : nat) : piece :=
  match iv with
  | IList l | IArr (ArrObj l) => Val (nth idx l PyNone)
  | IArr (Arr2 rows) => Row (nth idx rows (NInt 0, NInt 0))
  | IArr (ArrOther src) => ArrItem src idx
  end.

Definition item_type_piece (iv : ivar) (idx : nat) : piece :=
  match iv with
  | IList l | IArr (ArrObj l) => Lit (str_type (nth idx l PyNone))
  | IArr (Arr2 _) => Lit "<class 'numpy.ndarray'>"
  | IArr (ArrOther src) => ArrItemType src idx
  end.

Definition item_len_piece (iv : ivar) (idx : nat) : piece :=
  match iv with
  | IList l | IArr (ArrObj l) =>
    match seq_len (nth idx l PyNone) with
    | Some n => Lit (str_nat n)
    | None => ArrItemLen l idx
    end
  | IArr (Arr2 _) => Lit (str_nat 2)
  | IArr (ArrOther src) => ArrItemLen src idx
  end.

(** [np.array(intervals)] on the current value of [intervals]. *)
Definition to_array (iv : ivar) : result ivar :=
  match iv with
  | IList l => a <- np_array np_refuses l ;; Ok (IArr a)
  | IArr a => Ok (IArr a)
  end.

(** The [for] loop over [enumerate(intervals)]: it walks the list it was
    started on ([rest], from index [idx]) while the variable [intervals]
    ([iv]) is rebound to an array after each valid element. *)
Fixpoint check_loop (iv : ivar) (idx : nat) (rest : list pyval) : result ivar :=
  match rest with
  | [] => Ok iv
  | val :: rest' =>
    match val with
    | PyList elems =>
      match elems with
      | [v0; v1] =>
        match v0, v1 with
        | PyNum a, PyNum b =>
          if negb (num_lt a b) then
            Raise (ValueError [Lit "The 2nd value of an interval ";
                               Lit ("must be greater than the 1st " ++ nl);
                               Lit "--> "; item_piece iv idx;
                               Lit (" at index " ++ str_nat idx)])
          else
            iv' <- to_array iv ;; check_loop iv' (S idx) rest'
        | _, _ =>
          Raise (ValueError [Lit "An interval must contain 2 numbers, ";
                             Lit "int or float. --> "; item_piece iv idx;
                             Lit (" at index " ++ str_nat idx)])
        end
      | _ =>
        Raise (TypeError [Lit "An interval must contain 2 values ";
                          item_len_piece iv idx;
                          Lit (" given at index " ++ str_nat idx ++ " " ++ nl);
                          Lit "--> "; item_piece iv idx])
      end
    | _ =>
      Raise (TypeError [Lit "intervals must only contains lists ";
                        item_type_piece iv idx;
                        Lit (" given at index " ++ str_nat idx ++ " " ++ nl);
                        Lit "--> "; item_piece iv idx])
    end
  end.

Definition check_intervals (intervals : pyval) : result ivar :=
  match intervals with
  | PyList l => check_loop (IList l) 0 l
  | _ =>
    Raise (TypeError [Lit "intervals must be a list, ";
                      Lit (str_type intervals ++ " given")])
  end.

End Program.

(** *** Grouping (lines 221-235) *)

(** A bin: the values matched, and how many. *)
Definition bin := (list number * nat)%type.

(** A Python [dict] with [str] keys: insertion order is kept, and storing
    under a key already present replaces the value in place. *)
Definition pydict := list (string * bin).

Fixpoint dict_set (k : string) (v : bin) (d : pydict) : pydict :=
  match d with
  | [] => [(k, v)]
  | (k', v') :: d' =>
    if String.eqb k' k then (k', v) :: d' else (k', v') :: dict_set k v d'
  end.

Fixpoint dict_get (k : string) (d : pydict) : option bin :=
  match d with
  | [] => None
  | (k', v') :: d' => if String.eqb k' k then Some v' else dict_get k d'
  end.

(** [(x > itrvl[0]) & (x <= itrvl[1])], element by element of the series. *)
Definition in_interval (itrvl : interval) (x : number) : bool :=
  np_gt x (fst itrvl) && np_le x (snd itrvl).

(** [f'{itrvl[0]}-{itrvl[1]}'] and [f'+{intervals[-1][1]}'] *)
Definition label (itrvl : interval) : string :=
  str_number (fst itrvl) ++ "-" ++ str_number (snd itrvl).

Definition overflow_label (hi : number) : string := "+" ++ str_number hi.

(** The rows [for itrvl in intervals] visits.  After the intervals are
    resolved, [intervals] is an n x 2 array or the empty list (lemma
    [check_intervals_resolved]). *)
Definition rows_of (iv : ivar) : list interval :=
  match iv with
  | IArr (Arr2 rows) => rows
  | _ => []
  end.

(** [intervals[-1][1]] *)
Definition last_upper (iv : ivar) : result number :=
  match rows_of iv with
  | itrvl :: rest => Ok (snd (last rest itrvl))
  | [] => Raise (IndexError [Lit "list index out of range"])
  end.

Fixpoint group_loop (vals : list number) (rows : list interval) (d : pydict)
  : pydict :=
  match rows with
  | [] => d
  | itrvl :: rest =>
    let part := filter (in_interval itrvl) vals in
    group_loop vals rest (dict_set (label itrvl) (part, List.length part) d)
  end.

Definition grouping (vals : list number) (iv : ivar) (higher_vals : bool)
  : result pydict :=
  let intervals_dict := group_loop vals (rows_of iv) [] in
  if higher_vals then
    hi <- last_upper iv ;;
    let part := filter (fun x => np_gt x hi) vals in
    Ok (dict_set (overflow_label hi) (part, List.length part) intervals_dict)
  else Ok intervals_dict.

(** *** The whole function *)

(** The figure the function builds: the kind of chart, the labels (x), the
    counts (y), and for a bar chart the colour and the grid flag. *)
Record chart := Chart {
  chart_kind : string;
  chart_x : list string;
  chart_y : list nat;
  chart_color : option string;
  chart_grid : bool
}.

(** The calls into plotly, with the arguments that depend on the data. *)
Inductive plotly_call :=
| PxBar (x : list string) (y : list nat)
| UpdateTraces (marker_color : string)
| UpdateYaxes
| GoPie (labels : list string) (values : list nat)
| UpdateLayout
| ToImage (fig : chart)
| Show (fig : chart).

(** What [plot_group] returns: an IPython image, the bytes of the image,
    [None] (the value of [fig.show()]) or the figure. *)
Inductive returned :=
| RImage (fig : chart)
| RBytes (fig : chart)
| RNone
| RFigure (fig : chart).

Section PlotGroup.

Variable np_refuses : list pyval -> option exn.

(** What a call into plotly raises, if anything. *)
Variable plotly_raises : plotly_call -> option exn.

Definition plotly (c : plotly_call) : result unit :=
  match plotly_raises c with
  | Some e => Raise e
  | None => Ok tt
  end.

(** Lines 52-235: the checks, the intervals and the dictionary of bins.
    [intervals] is [PyNone] when the caller gives none. *)
Definition group_series (series : series_arg) (intervals : pyval)
           (higher_vals : bool) (bar_color : pyval) : result (string * pydict) :=
  vals <- check_series series ;;
  color <- check_bar_color bar_color ;;
  resolved <- match intervals with
              | PyNone => default_intervals np_refuses module_ceil vals
              | _ => iv <- check_intervals np_refuses intervals ;;
                     Ok (iv, higher_vals)
              end ;;
  intervals_dict <- grouping vals (fst resolved) (snd resolved) ;;
  Ok (color, intervals_dict).

(** Lines 245-279. *)
Definition build_figure (kind : string) (grid : bool) (color : string)
           (x : list string) (y : list nat) : result chart :=
  if String.eqb kind "bar" then
    _ <- plotly (PxBar x y) ;;
    _ <- plotly (UpdateTraces color) ;;
    _ <- (if grid then plotly UpdateYaxes else Ok tt) ;;
    Ok (Chart kind x y (Some color) grid)
  else if String.eqb kind "pie" then
    _ <- plotly (GoPie x y) ;;
    _ <- plotly UpdateLayout ;;
    Ok (Chart kind x y None false)
  else
    Raise (NameError [Lit ("Wrong " ++ dq ++ "kind" ++ dq
                           ++ " parameter, please check parameter")]).

(** Lines 294-320. *)
Definition deliver (output : string) (fig : chart) : result returned :=
  if String.eqb output "img" || String.eqb output "bytes" then
    _ <- plotly (ToImage fig) ;;
    if String.eqb output "img" then Ok (RImage fig) else Ok (RBytes fig)
  else if String.eqb output "fig" then
    _ <- plotly (Show fig) ;; Ok RNone
  else if String.eqb output "fig_obj" then Ok (RFigure fig)
  else Raise (NameError [Lit ("Unrecognized " ++ dq ++ "output" ++ dq
                              ++ " parameter")]).

Definition plot_group (series : series_arg) (intervals : pyval)
           (higher_vals : bool) (kind : string) (grid : bool)
           (bar_color : pyval) (output : string) : result returned :=
  grouped <- group_series series intervals higher_vals bar_color ;;
  let x := map fst (snd grouped) in
  let y := map (fun kv => snd (snd kv)) (snd grouped) in
  fig <- build_figure kind grid (fst grouped) x y ;;
  deliver output fig.

End PlotGroup.


(** numpy 1.24 and later refuse a list that is ragged at any depth: at
    some depth the items are neither all scalars nor all sequences of one
    length. *)
Definition is_scalar (v : pyval) : bool :=
  match seq_len v with None => true | Some _ => false end.

Definition items_of (v : pyval) : list pyval :=
  match v with PyList l | PyTuple l => l | _ => [] end.

(** The length all items share, when all are sequences of one length. *)
Definition common_len (l : list pyval) : option nat :=
  match l with
  | [] => None
  | v :: rest =>
    match seq_len v with
    | Some n =>
      if forallb (fun w => same_len (seq_len w) (Some n)) rest then Some n else None
    | None => None
    end
  end.

(** The shape detected before the items stop being regular, if they do;
    [items] are all the items at the depth reached, [shape] the dimensions
    found so far.  numpy looks no deeper than 64 dimensions. *)
Fixpoint inhomogeneous (depth : nat) (shape : list nat) (items : list pyval)
  : option (list nat) :=
  match depth with
  | O => None
  | S k =>
    if forallb is_scalar items then None
    else match common_len items with
         | Some n => inhomogeneous k (shape ++ [n])%list (flat_map items_of items)
         | None => Some shape
         end
  end.

(** [str] of a tuple of naturals: [(2,)], [(2, 3)]. *)
Definition str_shape (shape : list nat) : string :=
  match shape with
  | [n] => "(" ++ str_nat n ++ ",)"
  | _ => "(" ++ join ", " (map str_nat shape) ++ ")"
  end.

Definition numpy_strict : list pyval -> option exn :=
  fun l =>
    match inhomogeneous 64 [List.length l] l with
    | Some shape =>
      Some (ValueError
              [Lit "setting an array element with a sequence. ";
               Lit ("The requested array has an inhomogeneous shape after "
                    ++ str_nat (List.length shape) ++ " dimensions. ");
               Lit ("The detected shape was " ++ str_shape shape
                    ++ " + inhomogeneous part.")])
    | None => None
    end.

(** ** Vocabulary of the statements *)

(** The float literal [i.digits]. *)
Definition float_lit (i : N) (digits : string) : pyfloat :=
  PyF false i (match NilEmpty.uint_of_string digits with
               | Some d => d
               | None => D0 Nil
               end).

(** A Series of floats given by their literals. *)
Definition float_series (fs : list pyfloat) : series_arg :=
  Series (map (fun f => PyNum (NFloat f)) fs).

(** A Series of Python ints, and the caller's intervals as a Python list of
    two-element lists. *)
Definition int_series (zs : list Z) : series_arg :=
  Series (map (fun z => PyNum (NInt z)) zs).

Definition py_interval (r : interval) : pyval :=
  PyList [PyNum (fst r); PyNum (snd r)].

Definition py_intervals (rows : list interval) : pyval :=
  PyList (map py_interval rows).

(** Every interval has its first value below its second. *)
Definition well_ordered (rows : list interval) : bool :=
  forallb (fun r => num_lt (fst r) (snd r)) rows.

(** Each interval starts where the one before it ends. *)
Fixpoint contiguous (rows : list interval) : bool :=
  match rows with
  | r1 :: (r2 :: _) as rest =>
    Qeq_bool (value (snd r1)) (value (fst r2)) && contiguous rest
  | _ => true
  end.

(** Each interval starts at or after the end of the one before it. *)
Fixpoint ascending (rows : list interval) : bool :=
  match rows with
  | r1 :: (r2 :: _) as rest =>
    Qle_bool (value (snd r1)) (value (fst r2)) && ascending rest
  | _ => true
  end.



(** Two intervals with the same bounds, as numbers. *)
Definition same_bounds (r r' : interval) : Prop :=
  (value (fst r') == value (fst r))%Q /\ (value (snd r') == value (snd r))%Q.

(** The bin of an interval, and the overflow bin above a bound, as the
    grouping computes them. *)
Definition bin_of (vals : list number) (r : interval) : bin :=
  let part := filter (in_interval r) vals in (part, List.length part).

Definition overflow_bin (vals : list number) (hi : number) : bin :=
  let part := filter (fun x => np_gt x hi) vals in (part, List.length part).

(** [lo < v <= hi] and [hi < v], exactly. *)
Definition between (lo hi v : number) : bool := num_lt lo v && num_le v hi.

Definition above (hi v : number) : bool := num_lt hi v.

(** An int that binary64 holds exactly: magnitude at most 2^53. *)
Definition exact_int (z : Z) : bool := (Z.abs z <=? 2 ^ 53)%Z.

(** A number whose conversion to binary64 changes nothing: a float, a
    bool, or an int of magnitude at most 2^53. *)
Definition exact (n : number) : bool :=
  match n with
  | NInt z => exact_int z
  | _ => true
  end.

Definition exact_row (r : interval) : bool := exact (fst r) && exact (snd r).

(** The literal is zero or of a magnitude from [2^low] to [2^high]. *)
Definition magnitude_ok (low high : Z) (f : pyfloat) : bool :=
  let x := Qabs (float_value f) in
  Qeq_bool x 0 || (Qle_bool (2 ^ low) x && Qle_bool x (2 ^ high)).

(** A value of the series that the embedding holds as the program does: a
    bool, an int that binary64 holds exactly, or a float whose literal is
    zero or in the normal range of binary64, where [float] rounds it to 53
    bits. *)
Definition plain_value (n : number) : bool :=
  match n with
  | NInt z => exact_int z
  | NBool _ => true
  | NFloat f => magnitude_ok (-1022) 1023 f
  end.

(** [m = m' * 10^j] with as many factors 10 taken out of [m] as [fuel]
    allows. *)
Fixpoint strip_zeros (fuel : nat) (m j : Z) : Z * Z :=
  match fuel with
  | O => (m, j)
  | S k => if (m mod 10 =? 0)%Z then strip_zeros k (m / 10)%Z (j + 1)%Z else (m, j)
  end.

(** The literal is the one Python prints for the float it denotes: one
    fraction digit at least and no other final zero; zero, or a magnitude
    from 1e-4 up to 1e16; no literal with one significant digit less
    denotes the same float, and none with as many digits is nearer to it. *)
Definition printed (f : pyfloat) : bool :=
  let nd := Z.of_nat (nb_digits (f_frac f)) in
  let m := (Z.of_N (f_int f) * 10 ^ nd + Z.of_N (N.of_uint (f_frac f)))%Z in
  let lit := float_value (PyF false (f_int f) (f_frac f)) in
  (0 <? nd)%Z && ((nd =? 1)%Z || negb (m mod 10 =? 0)%Z) &&
  ((m =? 0)%Z ||
   (Qle_bool (1 # 10000) lit && Qlt_bool lit (inject_Z (10 ^ 16)) &&
    let (m', j) := strip_zeros 20 m 0 in
    let u := (10 ^ (j - nd))%Q in
    let down := (inject_Z (m' / 10 * 10) * u)%Q in
    let up := (down + 10 * u)%Q in
    negb (Qeq_bool (fl down) (fl lit)) && negb (Qeq_bool (fl up) (fl lit)) &&
    Qle_bool (Qabs (lit - fl lit)) (u / 2))).

(** A bound whose label the embedding prints as Python does: an int that
    binary64 holds exactly (so that it survives the conversion to a float
    array), a bool, or a float given by the literal Python prints. *)
Definition plain_bound (n : number) : bool :=
  match n with
  | NInt z => exact_int z
  | NBool _ => true
  | NFloat f => printed f
  end.

Definition plain_row (r : interval) : bool := plain_bound (fst r) && plain_bound (snd r).

(** The bins as the exact comparisons give them. *)
Definition exact_bin (vals : list number) (r : interval) : bin :=
  let part := filter (between (fst r) (snd r)) vals in (part, List.length part).

Definition exact_overflow (vals : list number) (hi : number) : bin :=
  let part := filter (above hi) vals in (part, List.length part).

Definition exact_entries (vals : list number) (rows : list interval) : pydict :=
  map (fun r => (label r, exact_bin vals r)) rows.



(** The values of a Series of dtype int64 or float64 on which the
    arithmetic of the embedding is that of numpy: ints that binary64 holds
    exactly, or floats other than [-0.0] that are zero or of a magnitude
    from 2^-900 to 2^1022, where no operation of the percentile overflows
    or leaves the normal range. *)
Definition plain_int (n : number) : bool :=
  match n with NInt z => exact_int z | _ => false end.

Definition plain_float (n : number) : bool :=
  match n with
  | NFloat f => magnitude_ok (-900) 1022 f && negb (neg_zero n)
  | _ => false
  end.

Definition numeric_series (vals : list number) : bool :=
  forallb plain_int vals || forallb plain_float vals.

(** The relative error of one rounding to binary64. *)
Definition eps : Q := 1 # 9007199254740992.

(** [l] is in ascending order. *)
Fixpoint sorted (l : list Q) : Prop :=
  match l with
  | [] => True
  | x :: l' => (forall y, In y l' -> (x <= y)%Q) /\ sorted l'
  end.


Definition entries_of (vals : list number) (rows : list interval) : pydict :=
  map (fun r => (label r, bin_of vals r)) rows.



(** An integer of [0, 255], in Python's sense of integer. *)
Definition int_in_0_255 (v : pyval) : Prop :=
  match v with
  | PyNum (NInt z) => (0 <= z <= 255)%Z
  | PyNum (NBool _) => True
  | _ => False
  end.

(** Text helpers used to take labels apart. *)
Fixpoint occurs (c : ascii) (s : string) : bool :=
  match s with
  | EmptyString => false
  | String a s' => Ascii.eqb a c || occurs c s'
  end.

Fixpoint split_at (c : ascii) (s : string) : string * string :=
  match s with
  | EmptyString => (EmptyString, EmptyString)
  | String a s' =>
    if Ascii.eqb a c then (EmptyString, s')
    else (String a (fst (split_at c s')), snd (split_at c s'))
  end.

Definition is_digit (c : ascii) : bool :=
  match NilEmpty.uint_of_string (String c EmptyString) with
  | Some _ => true
  | None => false
  end.

(** The decimal integer in front of a printed float. *)
Definition float_head (f : pyfloat) : Decimal.int :=
  if f_neg f then Neg (N.to_uint (f_int f)) else Pos (N.to_uint (f_int f)).

(** The intervals of the [while] loop, as pairs. *)
Fixpoint interval_rows (advance : number -> number) (todo : nat)
         (frm to : number) : list interval :=
  match todo with
  | O => []
  | S k => (frm, to) :: interval_rows advance k (advance frm) (advance to)
  end.

(** The float nearest to [k / 1000], as a number. *)
Definition milli (k : Z) : number := NFloat (float_of_milli k).

(** The five default intervals for the unit [k / 1000], as a float array. *)
Definition default_rows (k : Z) : list interval :=
  [(milli 0, milli k); (milli k, milli (2 * k)); (milli (2 * k), milli (3 * k));
   (milli (3 * k), milli (4 * k)); (milli (4 * k), milli (5 * k))].

(** Two lists of intervals print the same labels, one by one. *)
Fixpoint same_rows (l l' : list interval) : bool :=
  match l, l' with
  | [], [] => true
  | r :: t, r' :: t' => String.eqb (label r) (label r') && same_rows t t'
  | _, _ => false
  end.

(** The array the [while] loop and [np.array] make of the unit
    [k / 1000]. *)
Definition loop_rows (k : Z) : list interval :=
  cast_rows (interval_rows (advance_round (float_of_milli k)) nbr_of_intervals
                           (NInt 0) (NFloat (float_of_milli k))).

(** The unit of the percentile [P], in thousandths:
    [round(P / nbr_of_intervals, 3)] is the float of [unit_milli P / 1000]
    when [P] is not negative. *)
Definition unit_milli (P : Q) : Z := rint (fl (fl (P / 5) * 1000)).

(** What the table of the default intervals records of the unit
    [k / 1000]: the loop gives the five intervals from one multiple of the
    unit to the next, each below its upper bound unless the unit is zero,
    and no bound is negative. *)
Definition default_rows_ok (k : Z) : bool :=
  same_rows (loop_rows k) (default_rows k)
  && ((k =? 0)%Z || well_ordered (default_rows k))
  && forallb (fun r => Qle_bool 0 (value (fst r)) && Qle_bool 0 (value (snd r)))
             (default_rows k).

Definition milli_digits_ok (f : Z) : bool :=
  Qeq_bool (frac_value (milli_digits f)) (f # 1000).

(** The types [bar_color] may have. *)
Definition color_type (c : pyval) : bool :=
  match c with
  | PyTuple _ | PyList _ | PyStr _ => true
  | _ => false
  end.

(** Both bounds of an interval are values the embedding holds as the
    program does. *)
Definition held_row (r : interval) : bool := plain_value (fst r) && plain_value (snd r).

(** The outputs and kinds [plot_group] knows. *)
Definition known_output (output : string) : bool :=
  String.eqb output "img" || String.eqb output "bytes"
  || String.eqb output "fig" || String.eqb output "fig_obj".

Definition known_kind (kind : string) : bool :=
  String.eqb kind "bar" || String.eqb kind "pie".

(** plotly raises nothing. *)
Definition plotly_quiet : plotly_call -> option exn := fun _ => None.

(** The calls that build the chart of a kind raise nothing. *)
Definition chart_built (plotly_raises : plotly_call -> option exn) (kind : string)
           (grid : bool) (color : string) (x : list string) (y : list nat) : Prop :=
  (kind = "bar" /\ plotly_raises (PxBar x y) = None /\
   plotly_raises (UpdateTraces color) = None /\
   (grid = true -> plotly_raises UpdateYaxes = None)) \/
  (kind = "pie" /\ plotly_raises (GoPie x y) = None /\
   plotly_raises UpdateLayout = None).

(** The figure of a kind: a bar chart carries the colour and the grid
    flag, a pie chart neither. *)
Definition figure_of (kind : string) (grid : bool) (color : string)
           (x : list string) (y : list nat) : chart :=
  if String.eqb kind "bar" then Chart kind x y (Some color) grid
  else Chart kind x y None false.

(** What an output makes of the figure, when the call it needs raises
    nothing. *)
Definition delivered (plotly_raises : plotly_call -> option exn) (output : string)
           (fig : chart) (r : returned) : Prop :=
  (output = "img" /\ plotly_raises (ToImage fig) = None /\ r = RImage fig) \/
  (output = "bytes" /\ plotly_raises (ToImage fig) = None /\ r = RBytes fig) \/
  (output = "fig" /\ plotly_raises (Show fig) = None /\ r = RNone) \/
  (output = "fig_obj" /\ r = RFigure fig).

(** The counts of a dictionary, in order (the y axis). *)
Definition counts (d : pydict) : list nat := map (fun kv => snd (snd kv)) d.

(** * Properties *)

Arguments fl : simpl never.

(** ** Powers of two *)

Lemma two_not_0 : ~ (2 == 0)%Q.
Proof. discriminate. Qed.

Lemma pow2_pos (e : Z) : (0 < 2 ^ e)%Q.
Proof. apply Qpower_0_lt. reflexivity. Qed.

Lemma pow2_add (a b : Z) : (2 ^ (a + b) == 2 ^ a * 2 ^ b)%Q.
Proof. apply Qpower_plus, two_not_0. Qed.

Lemma pow2_succ (a : Z) : (2 ^ (a + 1) == 2 * 2 ^ a)%Q.
Proof. rewrite pow2_add. change (2 ^ 1)%Q with 2%Q. ring. Qed.

Lemma pow2_le (a b : Z) : (a <= b)%Z -> (2 ^ a <= 2 ^ b)%Q.
Proof. intro H. apply Qpower_le_compat_l; [exact H|discriminate]. Qed.

Lemma pow2_lt (a b : Z) : (a < b)%Z -> (2 ^ a < 2 ^ b)%Q.
Proof. intro H. apply Qpower_lt_compat_l; [exact H|reflexivity]. Qed.

Lemma pow2_Z (a : Z) : (0 <= a)%Z -> (inject_Z (2 ^ a) == 2 ^ a)%Q.
Proof. intro H. apply (Zpower_Qpower 2 a H). Qed.

Lemma pow2_integer (a : Z) : (0 <= a)%Z -> (2 ^ a == inject_Z (2 ^ a))%Q.
Proof. intro H. symmetry. apply pow2_Z, H. Qed.

Lemma pow2_sub (a b : Z) : (2 ^ (a - b) == 2 ^ a / 2 ^ b)%Q.
Proof.
  unfold Z.sub. rewrite pow2_add, Qpower_opp. reflexivity.
Qed.

(** ** The exponent of a rational *)

Lemma log2_bounds (n : Z) :
  (0 < n)%Z -> (2 ^ Z.log2 n <= inject_Z n)%Q /\ (inject_Z n < 2 ^ (Z.log2 n + 1))%Q.
Proof.
  intro H. destruct (Z.log2_spec n H) as [H1 H2].
  pose proof (Z.log2_nonneg n) as H0.
  split.
  - rewrite <- pow2_Z by exact H0. rewrite <- Zle_Qle. exact H1.
  - rewrite <- pow2_Z by lia. rewrite <- Zlt_Qlt.
    replace (Z.log2 n + 1)%Z with (Z.succ (Z.log2 n)) by lia. exact H2.
Qed.

Lemma ilog2_spec (x : Q) :
  (0 < x)%Q -> (2 ^ ilog2 x <= x)%Q /\ (x < 2 ^ (ilog2 x + 1))%Q.
Proof.
  intro Hx. unfold ilog2.
  set (a := Z.log2 (Qnum x)). set (b := Z.log2 (Z.pos (Qden x))).
  assert (Hn : (0 < Qnum x)%Z).
  { unfold Qlt in Hx. simpl in Hx. lia. }
  destruct (log2_bounds (Qnum x) Hn) as [Ha1 Ha2]. fold a in Ha1, Ha2.
  destruct (log2_bounds (Z.pos (Qden x)) eq_refl) as [Hb1 Hb2]. fold b in Hb1, Hb2.
  assert (Ex : (x * inject_Z (Z.pos (Qden x)) == inject_Z (Qnum x))%Q).
  { destruct x as [n d]. unfold Qeq, Qmult, inject_Z. simpl. lia. }
  pose proof (pow2_pos b) as Pb. pose proof (pow2_pos (a - b)) as Pab.
  assert (Ea : (2 ^ a == 2 ^ (a - b) * 2 ^ b)%Q).
  { rewrite <- pow2_add. replace (a - b + b)%Z with a by lia. reflexivity. }
  assert (Ea1 : (2 ^ (a + 1) == 2 ^ (a - b + 1) * 2 ^ b)%Q).
  { rewrite <- pow2_add. replace (a - b + 1 + b)%Z with (a + 1)%Z by lia. reflexivity. }
  assert (Ea0 : (2 ^ a == 2 ^ (a - b - 1) * 2 ^ (b + 1))%Q).
  { rewrite <- pow2_add. replace (a - b - 1 + (b + 1))%Z with a by lia. reflexivity. }
  assert (Hup : (x < 2 ^ (a - b + 1))%Q).
  { apply Qnot_le_lt. intro Hc.
    assert (H1 : (2 ^ (a - b + 1) * 2 ^ b <= x * inject_Z (Z.pos (Qden x)))%Q).
    { apply Qle_trans with (x * 2 ^ b)%Q.
      - apply Qmult_le_compat_r; [exact Hc|apply Qlt_le_weak, Pb].
      - rewrite !(Qmult_comm x). apply Qmult_le_compat_r; [exact Hb1|apply Qlt_le_weak, Hx]. }
    rewrite Ex, <- Ea1 in H1. lra. }
  assert (Hlow : (2 ^ (a - b - 1) < x)%Q).
  { apply Qnot_le_lt. intro Hc.
    assert (H1 : (x * inject_Z (Z.pos (Qden x)) < 2 ^ (a - b - 1) * 2 ^ (b + 1))%Q).
    { apply Qle_lt_trans with (2 ^ (a - b - 1) * inject_Z (Z.pos (Qden x)))%Q.
      - apply Qmult_le_compat_r; [exact Hc|]. unfold Qle; simpl; lia.
      - rewrite !(Qmult_comm (2 ^ (a - b - 1))).
        apply Qmult_lt_compat_r; [apply pow2_pos|exact Hb2]. }
    rewrite Ex, <- Ea0 in H1. lra. }
  destruct (Qle_bool (2 ^ (a - b)) x) eqn:E.
  - apply Qle_bool_iff in E. split; [exact E|exact Hup].
  - split; [apply Qlt_le_weak, Hlow|].
    replace (a - b - 1 + 1)%Z with (a - b)%Z by lia.
    apply Qnot_le_lt. intro Hc. apply Qle_bool_iff in Hc. congruence.
Qed.

Lemma ilog2_unique (x : Q) (e : Z) :
  (2 ^ e <= x)%Q -> (x < 2 ^ (e + 1))%Q -> ilog2 x = e.
Proof.
  intros H1 H2.
  assert (Hx : (0 < x)%Q) by (pose proof (pow2_pos e); lra).
  destruct (ilog2_spec x Hx) as [H3 H4].
  destruct (Z.lt_trichotomy (ilog2 x) e) as [H|[H|H]]; [|exact H|].
  - exfalso. assert (H5 : (2 ^ (ilog2 x + 1) <= 2 ^ e)%Q) by (apply pow2_le; lia). lra.
  - exfalso. assert (H5 : (2 ^ (e + 1) <= 2 ^ ilog2 x)%Q) by (apply pow2_le; lia). lra.
Qed.

Lemma ilog2_comp (x y : Q) : (0 < x)%Q -> (x == y)%Q -> ilog2 x = ilog2 y.
Proof.
  intros Hx E. destruct (ilog2_spec x Hx) as [H1 H2].
  symmetry. apply ilog2_unique; rewrite <- E; assumption.
Qed.

Lemma ilog2_le (x y : Q) : (0 < x)%Q -> (x <= y)%Q -> (ilog2 x <= ilog2 y)%Z.
Proof.
  intros Hx Hxy.
  destruct (ilog2_spec x Hx) as [H1 _].
  destruct (ilog2_spec y ltac:(lra)) as [_ H2].
  apply Z.lt_succ_r. apply Qpower_lt_compat_l_inv with (q := 2%Q); [|reflexivity].
  unfold Z.succ. lra.
Qed.

(** ** Rounding to an integer *)

Lemma rint_comp (x y : Q) : (x == y)%Q -> rint x = rint y.
Proof.
  intro E. unfold rint. rewrite (Qfloor_comp _ _ E).
  assert (Ec : ((x - inject_Z (Qfloor y)) ?= (1 # 2))%Q
               = ((y - inject_Z (Qfloor y)) ?= (1 # 2))%Q).
  { apply Qcompare_comp; [rewrite E|]; reflexivity. }
  rewrite Ec. reflexivity.
Qed.

Lemma rint_cases (x : Q) :
  (rint x = Qfloor x /\ (x - inject_Z (Qfloor x) <= 1 # 2)%Q) \/
  (rint x = (Qfloor x + 1)%Z /\ (1 # 2 <= x - inject_Z (Qfloor x))%Q).
Proof.
  unfold rint.
  destruct ((x - inject_Z (Qfloor x)) ?= (1 # 2))%Q eqn:E.
  - apply Qeq_alt in E. destruct (Z.even (Qfloor x)); [left|right]; split; auto; lra.
  - apply Qlt_alt in E. left. split; [reflexivity|lra].
  - apply Qgt_alt in E. right. split; [reflexivity|lra].
Qed.

Lemma rint_near (x : Q) :
  (x - (1 # 2) <= inject_Z (rint x))%Q /\ (inject_Z (rint x) <= x + (1 # 2))%Q.
Proof.
  pose proof (Qfloor_le x) as Hlo. pose proof (Qlt_floor x) as Hhi.
  rewrite inject_Z_plus in Hhi. change (inject_Z 1) with 1%Q in Hhi.
  destruct (rint_cases x) as [[-> H]|[-> H]].
  - split; lra.
  - rewrite inject_Z_plus. change (inject_Z 1) with 1%Q. split; lra.
Qed.

Lemma rint_integer (x : Q) (k : Z) : (x == inject_Z k)%Q -> rint x = k.
Proof.
  intro H. rewrite (rint_comp _ _ H). unfold rint. rewrite Qfloor_Z.
  assert (E : ((inject_Z k - inject_Z k) ?= (1 # 2))%Q = Lt).
  { change (inject_Z k - inject_Z k < 1 # 2)%Q. lra. }
  rewrite E. reflexivity.
Qed.

Lemma rint_le (x y : Q) : (x <= y)%Q -> (rint x <= rint y)%Z.
Proof.
  intro H. pose proof (Qfloor_resp_le x y H) as Hf.
  destruct (Z.eq_dec (Qfloor x) (Qfloor y)) as [E|N].
  - unfold rint. rewrite E.
    destruct ((x - inject_Z (Qfloor y)) ?= (1 # 2))%Q eqn:Ex;
      destruct ((y - inject_Z (Qfloor y)) ?= (1 # 2))%Q eqn:Ey;
      try (destruct (Z.even (Qfloor y))); try lia;
      first [apply Qeq_alt in Ex | apply Qlt_alt in Ex | apply Qgt_alt in Ex];
      first [apply Qeq_alt in Ey | apply Qlt_alt in Ey | apply Qgt_alt in Ey];
      exfalso; lra.
  - destruct (rint_cases x) as [[-> _]|[-> _]];
      destruct (rint_cases y) as [[-> _]|[-> _]]; lia.
Qed.

(** ** Rounding a positive rational to binary64 *)

Lemma scaled_bounds (x : Q) :
  (0 < x)%Q ->
  (2 ^ 52 <= x / 2 ^ (ilog2 x - 52))%Q /\ (x / 2 ^ (ilog2 x - 52) < 2 ^ 53)%Q.
Proof.
  intro Hx. destruct (ilog2_spec x Hx) as [H1 H2].
  set (e := ilog2 x) in *.
  pose proof (pow2_pos (e - 52)) as Ps.
  assert (E1 : (2 ^ e == 2 ^ 52 * 2 ^ (e - 52))%Q).
  { rewrite <- pow2_add. replace (52 + (e - 52))%Z with e by lia. reflexivity. }
  assert (E2 : (2 ^ (e + 1) == 2 ^ 53 * 2 ^ (e - 52))%Q).
  { rewrite <- pow2_add. replace (53 + (e - 52))%Z with (e + 1)%Z by lia. reflexivity. }
  split.
  - apply Qle_shift_div_l; [exact Ps|]. rewrite <- E1. exact H1.
  - apply Qlt_shift_div_r; [exact Ps|]. rewrite <- E2. exact H2.
Qed.

Lemma mantissa_bounds (x : Q) :
  (0 < x)%Q ->
  (2 ^ 52 <= rint (x / 2 ^ (ilog2 x - 52)) <= 2 ^ 53)%Z.
Proof.
  intro Hx. destruct (scaled_bounds x Hx) as [H1 H2].
  assert (E52 : rint (2 ^ 52) = (2 ^ 52)%Z) by (apply rint_integer, pow2_integer; lia).
  assert (E53 : rint (2 ^ 53) = (2 ^ 53)%Z) by (apply rint_integer, pow2_integer; lia).
  split.
  - rewrite <- E52. apply rint_le. exact H1.
  - rewrite <- E53. apply rint_le. apply Qlt_le_weak. exact H2.
Qed.

Lemma fl_pos_comp (x y : Q) : (0 < x)%Q -> (x == y)%Q -> (fl_pos x == fl_pos y)%Q.
Proof.
  intros Hx E. unfold fl_pos. rewrite <- (ilog2_comp x y Hx E).
  rewrite (rint_comp (x / 2 ^ (ilog2 x - 52)) (y / 2 ^ (ilog2 x - 52))).
  - reflexivity.
  - apply Qdiv_comp; [exact E|reflexivity].
Qed.

Lemma fl_pos_bounds (x : Q) :
  (0 < x)%Q -> (2 ^ ilog2 x <= fl_pos x)%Q /\ (fl_pos x <= 2 ^ (ilog2 x + 1))%Q.
Proof.
  intro Hx. destruct (mantissa_bounds x Hx) as [H1 H2]. unfold fl_pos.
  set (e := ilog2 x) in *. set (m := rint (x / 2 ^ (e - 52))) in *.
  pose proof (pow2_pos (e - 52)) as Ps.
  assert (E1 : (2 ^ e == 2 ^ 52 * 2 ^ (e - 52))%Q).
  { rewrite <- pow2_add. replace (52 + (e - 52))%Z with e by lia. reflexivity. }
  assert (E2 : (2 ^ (e + 1) == 2 ^ 53 * 2 ^ (e - 52))%Q).
  { rewrite <- pow2_add. replace (53 + (e - 52))%Z with (e + 1)%Z by lia. reflexivity. }
  rewrite E1, E2. split; apply Qmult_le_compat_r; try (apply Qlt_le_weak, Ps).
  - change (2 ^ 52)%Q with (inject_Z (2 ^ 52)). rewrite <- Zle_Qle. exact H1.
  - change (2 ^ 53)%Q with (inject_Z (2 ^ 53)). rewrite <- Zle_Qle. exact H2.
Qed.

Lemma fl_pos_positive (x : Q) : (0 < x)%Q -> (0 < fl_pos x)%Q.
Proof.
  intro Hx. destruct (fl_pos_bounds x Hx) as [H _].
  pose proof (pow2_pos (ilog2 x)). lra.
Qed.

(** The error is at most half a unit in the last place. *)
Lemma fl_pos_error (x : Q) :
  (0 < x)%Q ->
  (x - 2 ^ (ilog2 x - 53) <= fl_pos x)%Q /\ (fl_pos x <= x + 2 ^ (ilog2 x - 53))%Q.
Proof.
  intro Hx. unfold fl_pos. set (e := ilog2 x).
  pose proof (pow2_pos (e - 52)) as Ps.
  destruct (rint_near (x / 2 ^ (e - 52))) as [H1 H2].
  assert (E : (2 ^ (e - 53) == (1 # 2) * 2 ^ (e - 52))%Q).
  { replace (e - 52)%Z with (e - 53 + 1)%Z by lia. rewrite pow2_succ. field. }
  assert (Ex : (x == x / 2 ^ (e - 52) * 2 ^ (e - 52))%Q) by (field; lra).
  rewrite E. set (y := (x / 2 ^ (e - 52))%Q) in *.
  set (p := (2 ^ (e - 52))%Q) in *. set (m := inject_Z (rint y)) in *.
  rewrite Ex. split; nra.
Qed.

Lemma fl_pos_le (x y : Q) : (0 < x)%Q -> (x <= y)%Q -> (fl_pos x <= fl_pos y)%Q.
Proof.
  intros Hx Hxy. assert (Hy : (0 < y)%Q) by lra.
  pose proof (ilog2_le x y Hx Hxy) as He.
  destruct (Z.eq_dec (ilog2 x) (ilog2 y)) as [E|N].
  - unfold fl_pos. rewrite E. pose proof (pow2_pos (ilog2 y - 52)) as Ps.
    apply Qmult_le_compat_r; [|apply Qlt_le_weak, Ps].
    rewrite <- Zle_Qle. apply rint_le.
    apply Qmult_le_compat_r; [exact Hxy|]. apply Qlt_le_weak, Qinv_lt_0_compat, Ps.
  - destruct (fl_pos_bounds x Hx) as [_ H1]. destruct (fl_pos_bounds y Hy) as [H2 _].
    assert (H3 : (2 ^ (ilog2 x + 1) <= 2 ^ ilog2 y)%Q) by (apply pow2_le; lia).
    lra.
Qed.

(** A positive rational whose scaling is an integer is rounded to itself. *)
Lemma fl_pos_integral (x : Q) (k : Z) :
  (0 < x)%Q -> (x / 2 ^ (ilog2 x - 52) == inject_Z k)%Q -> (fl_pos x == x)%Q.
Proof.
  intros Hx E. unfold fl_pos. rewrite (rint_integer _ k E), <- E.
  pose proof (pow2_pos (ilog2 x - 52)). field. lra.
Qed.

(** [m * 2^s] with [0 < m <= 2^53] is a float. *)
Lemma fl_pos_exact (m s : Z) :
  (0 < m <= 2 ^ 53)%Z -> (fl_pos (inject_Z m * 2 ^ s) == inject_Z m * 2 ^ s)%Q.
Proof.
  intros [Hm1 Hm2]. set (x := (inject_Z m * 2 ^ s)%Q).
  pose proof (pow2_pos s) as Ps.
  assert (Hx : (0 < x)%Q).
  { unfold x. apply Qmult_lt_0_compat; [|exact Ps].
    change 0%Q with (inject_Z 0). rewrite <- Zlt_Qlt. exact Hm1. }
  destruct (log2_bounds m Hm1) as [L1 L2].
  assert (He : ilog2 x = (Z.log2 m + s)%Z).
  { apply ilog2_unique; unfold x.
    - rewrite pow2_add. apply Qmult_le_compat_r; [exact L1|lra].
    - replace (Z.log2 m + s + 1)%Z with (Z.log2 m + 1 + s)%Z by lia.
      rewrite pow2_add. apply Qmult_lt_compat_r; [exact Ps|exact L2]. }
  assert (Hl : (0 <= Z.log2 m <= 53)%Z).
  { split; [apply Z.log2_nonneg|].
    change 53%Z with (Z.log2 (2 ^ 53)). apply Z.log2_le_mono. exact Hm2. }
  destruct (Z.eq_dec (Z.log2 m) 53) as [E53|N53].
  - assert (Em : m = (2 ^ 53)%Z).
    { destruct (Z.log2_spec m Hm1) as [H1 _]. rewrite E53 in H1. lia. }
    apply (fl_pos_integral x (2 ^ 52) Hx). rewrite He, E53. unfold x. rewrite Em.
    replace (53 + s - 52)%Z with (s + 1)%Z by lia. rewrite pow2_succ.
    change (inject_Z (2 ^ 53)) with (2 * inject_Z (2 ^ 52))%Q. field. lra.
  - apply (fl_pos_integral x (m * 2 ^ (52 - Z.log2 m)) Hx). rewrite He. unfold x.
    rewrite inject_Z_mult, <- pow2_integer by lia.
    replace (Z.log2 m + s - 52)%Z with (s - (52 - Z.log2 m))%Z by lia.
    rewrite pow2_sub. pose proof (pow2_pos (52 - Z.log2 m)). field. split; lra.
Qed.

Lemma fl_pos_idem (x : Q) : (0 < x)%Q -> (fl_pos (fl_pos x) == fl_pos x)%Q.
Proof.
  intro Hx. destruct (mantissa_bounds x Hx) as [H1 H2].
  unfold fl_pos at 2 3. apply fl_pos_exact. lia.
Qed.

(** ** Rounding to binary64 *)

Lemma Qnum_pos (x : Q) : (0 < x)%Q <-> exists p, Qnum x = Zpos p.
Proof.
  destruct x as [[|p|p] d]; unfold Qlt; simpl; split;
    try (intro H; lia); try (intros [q H]; discriminate H); eauto.
Qed.

Lemma Qnum_neg (x : Q) : (x < 0)%Q <-> exists p, Qnum x = Zneg p.
Proof.
  destruct x as [[|p|p] d]; unfold Qlt; simpl; split;
    try (intro H; lia); try (intros [q H]; discriminate H); eauto.
Qed.

Lemma fl_of_pos (x : Q) : (0 < x)%Q -> fl x = Qred (fl_pos x).
Proof. intro H. apply Qnum_pos in H. destruct H as [p H]. unfold fl. rewrite H. reflexivity. Qed.

Lemma fl_of_neg (x : Q) : (x < 0)%Q -> fl x = Qred (- fl_pos (- x)).
Proof. intro H. apply Qnum_neg in H. destruct H as [p H]. unfold fl. rewrite H. reflexivity. Qed.

Lemma fl_of_zero (x : Q) : (x == 0)%Q -> fl x = 0%Q.
Proof.
  intro H. unfold fl. destruct x as [[|p|p] d]; [reflexivity|..];
    unfold Qeq in H; simpl in H; lia.
Qed.

Lemma fl_pos_value (x : Q) : (0 < x)%Q -> (fl x == fl_pos x)%Q.
Proof. intro H. rewrite (fl_of_pos x H). apply Qred_correct. Qed.

Lemma fl_neg_value (x : Q) : (x < 0)%Q -> (fl x == - fl_pos (- x))%Q.
Proof. intro H. rewrite (fl_of_neg x H). apply Qred_correct. Qed.

(** [fl] gives equal results, not only equivalent ones, on equivalent
    rationals. *)
Lemma fl_eq (x y : Q) : (x == y)%Q -> fl x = fl y.
Proof.
  intro E. destruct (Q_dec x 0) as [[H|H]|H].
  - rewrite (fl_of_neg x H), (fl_of_neg y) by (rewrite <- E; exact H).
    apply Qred_complete. apply Qopp_comp. apply fl_pos_comp; [lra|rewrite E; reflexivity].
  - rewrite (fl_of_pos x H), (fl_of_pos y) by (rewrite <- E; exact H).
    apply Qred_complete. apply fl_pos_comp; assumption.
  - rewrite (fl_of_zero x H), (fl_of_zero y) by (rewrite <- E; exact H). reflexivity.
Qed.

#[global] Instance fl_proper : Proper (Qeq ==> Qeq) fl.
Proof. intros x y E. rewrite (fl_eq x y E). reflexivity. Qed.

Lemma fl_opp (x : Q) : (fl (- x) == - fl x)%Q.
Proof.
  destruct (Q_dec x 0) as [[H|H]|H].
  - rewrite (fl_pos_value (- x)) by lra. rewrite (fl_neg_value x H). ring.
  - rewrite (fl_neg_value (- x)) by lra. rewrite (fl_pos_value x H).
    rewrite (fl_pos_comp (- - x) x); [reflexivity|lra|ring].
  - rewrite (fl_of_zero x H), (fl_of_zero (- x)) by lra. reflexivity.
Qed.

Lemma fl_le (x y : Q) : (x <= y)%Q -> (fl x <= fl y)%Q.
Proof.
  intro Hxy.
  destruct (Q_dec x 0) as [[Hx|Hx]|Hx]; destruct (Q_dec y 0) as [[Hy|Hy]|Hy];
    try (exfalso; lra).
  - rewrite (fl_neg_value x Hx), (fl_neg_value y Hy).
    pose proof (fl_pos_le (- y) (- x) ltac:(lra) ltac:(lra)). lra.
  - rewrite (fl_neg_value x Hx), (fl_pos_value y Hy).
    pose proof (fl_pos_positive (- x) ltac:(lra)). pose proof (fl_pos_positive y Hy). lra.
  - rewrite (fl_neg_value x Hx), (fl_of_zero y Hy).
    pose proof (fl_pos_positive (- x) ltac:(lra)). lra.
  - rewrite (fl_pos_value x Hx), (fl_pos_value y Hy). apply fl_pos_le; assumption.
  - rewrite (fl_of_zero x Hx), (fl_pos_value y Hy).
    pose proof (fl_pos_positive y Hy). lra.
  - rewrite (fl_of_zero x Hx), (fl_of_zero y Hy). lra.
Qed.

Lemma fl_nonneg (x : Q) : (0 <= x)%Q -> (0 <= fl x)%Q.
Proof. intro H. change 0%Q with (fl 0) at 1. apply fl_le, H. Qed.

Lemma fl_positive (x : Q) : (0 < x)%Q -> (0 < fl x)%Q.
Proof. intro H. rewrite (fl_pos_value x H). apply fl_pos_positive, H. Qed.

Lemma eps_pow2 : (eps == 2 ^ (-53))%Q.
Proof. reflexivity. Qed.

Lemma fl_error (x : Q) :
  (0 <= x)%Q -> (x * (1 - eps) <= fl x)%Q /\ (fl x <= x * (1 + eps))%Q.
Proof.
  intro H0. destruct (Qle_lt_or_eq _ _ H0) as [Hx|Hx].
  - rewrite (fl_pos_value x Hx).
    destruct (fl_pos_error x Hx) as [H1 H2].
    destruct (ilog2_spec x Hx) as [H3 _].
    assert (E : (2 ^ (ilog2 x - 53) == 2 ^ ilog2 x * eps)%Q).
    { rewrite eps_pow2, <- pow2_add. reflexivity. }
    rewrite E in H1, H2. set (p := (2 ^ ilog2 x)%Q) in *.
    assert (He : (0 < eps)%Q) by reflexivity.
    split; nra.
  - rewrite (fl_of_zero x) by (symmetry; exact Hx). rewrite <- Hx. split; lra.
Qed.

Lemma fl_idem (x : Q) : fl (fl x) = fl x.
Proof.
  destruct (Q_dec x 0) as [[H|H]|H].
  - assert (Hp : (0 < fl_pos (- x))%Q) by (apply fl_pos_positive; lra).
    assert (Hn : (fl x < 0)%Q) by (rewrite (fl_neg_value x H); lra).
    rewrite (fl_of_neg (fl x) Hn), (fl_of_neg x H). apply Qred_complete.
    apply Qopp_comp.
    rewrite (fl_pos_comp (- Qred (- fl_pos (- x))) (fl_pos (- x))).
    + apply fl_pos_idem. lra.
    + rewrite Qred_correct. lra.
    + rewrite Qred_correct. ring.
  - assert (Hp : (0 < fl_pos x)%Q) by (apply fl_pos_positive; lra).
    assert (Hn : (0 < fl x)%Q) by (rewrite (fl_pos_value x H); lra).
    rewrite (fl_of_pos (fl x) Hn), (fl_of_pos x H). apply Qred_complete.
    rewrite (fl_pos_comp (Qred (fl_pos x)) (fl_pos x)).
    + apply fl_pos_idem. lra.
    + rewrite Qred_correct. lra.
    + apply Qred_correct.
  - rewrite (fl_of_zero x H). reflexivity.
Qed.

(** Integers of magnitude up to [2^53], scaled by a power of two, are
    floats. *)
Lemma fl_exact (m s : Z) :
  (Z.abs m <= 2 ^ 53)%Z -> (fl (inject_Z m * 2 ^ s) == inject_Z m * 2 ^ s)%Q.
Proof.
  intro Hm. pose proof (pow2_pos s) as Ps.
  destruct (Z.lt_trichotomy m 0) as [H|[H|H]].
  - assert (Hx : (inject_Z m * 2 ^ s < 0)%Q).
    { assert (Hz : (inject_Z m < 0)%Q) by (change 0%Q with (inject_Z 0); rewrite <- Zlt_Qlt; lia).
      nra. }
    rewrite (fl_neg_value _ Hx).
    rewrite (fl_pos_comp (- (inject_Z m * 2 ^ s)) (inject_Z (- m) * 2 ^ s)).
    + rewrite fl_pos_exact by lia. rewrite inject_Z_opp. ring.
    + lra.
    + rewrite inject_Z_opp. ring.
  - subst m. rewrite (fl_of_zero (inject_Z 0 * 2 ^ s)); ring.
  - assert (Hx : (0 < inject_Z m * 2 ^ s)%Q).
    { assert (Hz : (0 < inject_Z m)%Q) by (change 0%Q with (inject_Z 0); rewrite <- Zlt_Qlt; lia).
      nra. }
    rewrite (fl_pos_value _ Hx). apply fl_pos_exact. lia.
Qed.

Lemma fl_int (z : Z) : (Z.abs z <= 2 ^ 53)%Z -> (fl (inject_Z z) == inject_Z z)%Q.
Proof.
  intro H. pose proof (fl_exact z 0 H) as E. change (2 ^ 0)%Q with 1%Q in E.
  rewrite Qmult_1_r in E. exact E.
Qed.

(** ** Comparisons *)

Lemma Qlt_bool_iff (a b : Q) : Qlt_bool a b = true <-> (a < b)%Q.
Proof.
  unfold Qlt_bool. rewrite negb_true_iff.
  split; intro H.
  - apply Qnot_le_lt. intro Hle. apply Qle_bool_iff in Hle. congruence.
  - destruct (Qle_bool b a) eqn:E; [|reflexivity].
    apply Qle_bool_iff in E. exfalso. exact (Qlt_not_le _ _ H E).
Qed.

Lemma Qlt_bool_false_iff (a b : Q) : Qlt_bool a b = false <-> (b <= a)%Q.
Proof.
  unfold Qlt_bool. rewrite negb_false_iff. apply Qle_bool_iff.
Qed.

Lemma Qle_bool_false_iff (a b : Q) : Qle_bool a b = false <-> (b < a)%Q.
Proof.
  rewrite <- Qlt_bool_iff. unfold Qlt_bool.
  destruct (Qle_bool a b); simpl; intuition congruence.
Qed.

Lemma Qlt_bool_comp (a a' b b' : Q) :
  (a == a')%Q -> (b == b')%Q -> Qlt_bool a b = Qlt_bool a' b'.
Proof.
  intros Ea Eb. apply eq_true_iff_eq. rewrite !Qlt_bool_iff, Ea, Eb. reflexivity.
Qed.

Lemma Qle_bool_comp (a a' b b' : Q) :
  (a == a')%Q -> (b == b')%Q -> Qle_bool a b = Qle_bool a' b'.
Proof.
  intros Ea Eb. apply eq_true_iff_eq. rewrite !Qle_bool_iff, Ea, Eb. reflexivity.
Qed.

Lemma exact_int_iff (z : Z) : exact_int z = true <-> (Z.abs z <= 2 ^ 53)%Z.
Proof. unfold exact_int. apply Z.leb_le. Qed.

(** The conversion to binary64 leaves an exact number as it is. *)
Lemma fl_value_exact (n : number) : exact n = true -> (fl (value n) == value n)%Q.
Proof.
  destruct n as [b|z|f]; simpl; intro H.
  - apply fl_int. destruct b; simpl; lia.
  - apply fl_int, exact_int_iff, H.
  - rewrite fl_idem. reflexivity.
Qed.

Lemma operand_exact (other n : number) :
  exact n = true -> (operand other n == value n)%Q.
Proof.
  intro H. unfold operand.
  destruct (is_float other || is_float n); [apply fl_value_exact, H|reflexivity].
Qed.

(** On exact numbers numpy's comparisons are the exact ones. *)
Lemma np_gt_exact (x y : number) :
  exact x = true -> exact y = true -> np_gt x y = num_gt x y.
Proof.
  intros Hx Hy. unfold np_gt, num_gt.
  apply Qlt_bool_comp; apply operand_exact; assumption.
Qed.

Lemma np_le_exact (x y : number) :
  exact x = true -> exact y = true -> np_le x y = num_le x y.
Proof.
  intros Hx Hy. unfold np_le, num_le.
  apply Qle_bool_comp; apply operand_exact; assumption.
Qed.

Lemma in_interval_between (r : interval) (v : number) :
  exact_row r = true -> exact v = true ->
  in_interval r v = between (fst r) (snd r) v.
Proof.
  intros Hr Hv. apply andb_true_iff in Hr. destruct Hr as [H1 H2].
  unfold in_interval, between.
  rewrite np_gt_exact, np_le_exact by assumption. reflexivity.
Qed.

Lemma between_iff (lo hi v : number) :
  between lo hi v = true <-> (value lo < value v)%Q /\ (value v <= value hi)%Q.
Proof.
  unfold between, num_lt, num_le.
  rewrite andb_true_iff, Qlt_bool_iff, Qle_bool_iff. reflexivity.
Qed.

Lemma above_iff (hi v : number) : above hi v = true <-> (value hi < value v)%Q.
Proof. unfold above, num_lt. apply Qlt_bool_iff. Qed.

Lemma in_interval_iff (r : interval) (v : number) :
  exact_row r = true -> exact v = true ->
  (in_interval r v = true <->
   (value (fst r) < value v)%Q /\ (value v <= value (snd r))%Q).
Proof.
  intros Hr Hv. rewrite in_interval_between by assumption. apply between_iff.
Qed.

Lemma np_gt_iff (v lo : number) :
  exact v = true -> exact lo = true ->
  (np_gt v lo = true <-> (value lo < value v)%Q).
Proof.
  intros Hv Hlo. rewrite np_gt_exact by assumption. unfold num_gt. apply Qlt_bool_iff.
Qed.

Lemma num_gt_iff (v lo : number) :
  num_gt v lo = true <-> (value lo < value v)%Q.
Proof. unfold num_gt. apply Qlt_bool_iff. Qed.

Lemma num_gt_ext (a b v : number) :
  (value a == value b)%Q -> num_gt v a = num_gt v b.
Proof.
  intro H. apply eq_true_iff_eq. rewrite !num_gt_iff, H. reflexivity.
Qed.

Lemma between_ext (lo hi lo' hi' v : number) :
  (value lo == value lo')%Q -> (value hi == value hi')%Q ->
  between lo hi v = between lo' hi' v.
Proof.
  intros Hl Hh. apply eq_true_iff_eq. rewrite !between_iff, Hl, Hh. reflexivity.
Qed.

(** The bins the grouping computes, on exact numbers. *)
Lemma filter_in_interval (vals : list number) (r : interval) :
  forallb exact vals = true -> exact_row r = true ->
  filter (in_interval r) vals = filter (between (fst r) (snd r)) vals.
Proof.
  intros Hv Hr. apply filter_ext_in. intros v Hin.
  apply in_interval_between; [exact Hr|].
  rewrite forallb_forall in Hv. apply Hv, Hin.
Qed.

Lemma filter_np_gt (vals : list number) (hi : number) :
  forallb exact vals = true -> exact hi = true ->
  filter (fun x => np_gt x hi) vals = filter (above hi) vals.
Proof.
  intros Hv Hh. apply filter_ext_in. intros v Hin.
  rewrite forallb_forall in Hv. rewrite np_gt_exact by auto. reflexivity.
Qed.
(** ** Printed numbers and labels *)

Lemma occurs_app (c : ascii) (a b : string) :
  occurs c (a ++ b) = occurs c a || occurs c b.
Proof.
  induction a as [|x a IH]; simpl; [reflexivity|].
  rewrite IH. apply orb_assoc.
Qed.

Lemma split_at_app (c : ascii) (a b : string) :
  occurs c a = false -> split_at c (a ++ String c b) = (a, b).
Proof.
  induction a as [|x a IH]; simpl.
  - intros _. rewrite Ascii.eqb_refl. reflexivity.
  - intro H. apply orb_false_iff in H. destruct H as [Hx Ha].
    rewrite Hx, (IH Ha). reflexivity.
Qed.

Lemma app_sep_inj (c : ascii) (a a' b b' : string) :
  occurs c a = false -> occurs c a' = false ->
  a ++ String c b = a' ++ String c b' -> a = a' /\ b = b'.
Proof.
  intros Ha Ha' E.
  pose proof (split_at_app c a b Ha) as S1.
  pose proof (split_at_app c a' b' Ha') as S2.
  rewrite E in S1. rewrite S1 in S2. inversion S2. split; reflexivity.
Qed.

Lemma occurs_uint (c : ascii) (d : uint) :
  is_digit c = false -> occurs c (NilEmpty.string_of_uint d) = false.
Proof.
  intro Hc.
  induction d; cbn [occurs NilEmpty.string_of_uint]; [reflexivity|..];
    rewrite IHd, orb_false_r;
    match goal with
    | |- Ascii.eqb ?x c = false =>
      destruct (Ascii.eqb_spec x c) as [<-|]; [discriminate Hc|reflexivity]
    end.
Qed.

Lemma occurs_int (c : ascii) (i : Decimal.int) :
  is_digit c = false -> c <> "-"%char ->
  occurs c (NilEmpty.string_of_int i) = false.
Proof.
  intros Hc Hm. destruct i as [d|d]; cbn [occurs NilEmpty.string_of_int].
  - apply occurs_uint, Hc.
  - rewrite (occurs_uint c d Hc), orb_false_r.
    destruct (Ascii.eqb_spec "-"%char c); [congruence|reflexivity].
Qed.

Lemma uint_string_inj (d d' : uint) :
  NilEmpty.string_of_uint d = NilEmpty.string_of_uint d' -> d = d'.
Proof.
  intro E. pose proof (NilEmpty.usu d) as H. rewrite E, NilEmpty.usu in H.
  congruence.
Qed.

Lemma int_string_inj (i i' : Decimal.int) :
  NilEmpty.string_of_int i = NilEmpty.string_of_int i' -> i = i'.
Proof.
  intro E. pose proof (NilEmpty.isi i) as H. rewrite E, NilEmpty.isi in H.
  congruence.
Qed.

Lemma str_float_head (f : pyfloat) :
  str_float f =
  NilEmpty.string_of_int (float_head f)
  ++ String "."%char (NilEmpty.string_of_uint (f_frac f)).
Proof.
  unfold str_float, float_head. destruct (f_neg f); reflexivity.
Qed.

Lemma float_head_inj (f f' : pyfloat) :
  float_head f = float_head f' -> f_neg f = f_neg f' /\ f_int f = f_int f'.
Proof.
  unfold float_head. destruct (f_neg f), (f_neg f'); intro E;
    try discriminate E; injection E as E;
    apply DecimalN.Unsigned.to_uint_inj in E; auto.
Qed.

Lemma str_float_inj (f f' : pyfloat) : str_float f = str_float f' -> f = f'.
Proof.
  rewrite !str_float_head. intro E.
  apply app_sep_inj in E; try (apply occurs_int; [reflexivity|discriminate]).
  destruct E as [Eh Ef].
  apply int_string_inj, float_head_inj in Eh. apply uint_string_inj in Ef.
  destruct f, f', Eh; simpl in *; congruence.
Qed.

Lemma occurs_dot_float (f : pyfloat) : occurs "."%char (str_float f) = true.
Proof.
  rewrite str_float_head, occurs_app. simpl. apply orb_true_r.
Qed.

Lemma str_number_inj (a b : number) : str_number a = str_number b -> a = b.
Proof.
  destruct a as [x|z|f], b as [y|z'|f']; simpl; intro E.
  - destruct x, y; (reflexivity || discriminate E).
  - apply (f_equal NilEmpty.int_of_string) in E.
    unfold str_Z in E. rewrite NilEmpty.isi in E. destruct x; discriminate E.
  - apply (f_equal (occurs "."%char)) in E. rewrite occurs_dot_float in E.
    destruct x; discriminate E.
  - apply (f_equal NilEmpty.int_of_string) in E.
    unfold str_Z in E. rewrite NilEmpty.isi in E. destruct y; discriminate E.
  - apply int_string_inj, DecimalZ.to_int_inj in E. congruence.
  - apply (f_equal (occurs "."%char)) in E. rewrite occurs_dot_float in E.
    unfold str_Z in E. rewrite occurs_int in E; [discriminate E|reflexivity|discriminate].
  - apply (f_equal (occurs "."%char)) in E. rewrite occurs_dot_float in E.
    destruct y; discriminate E.
  - apply (f_equal (occurs "."%char)) in E. rewrite occurs_dot_float in E.
    unfold str_Z in E. rewrite occurs_int in E; [discriminate E|reflexivity|discriminate].
  - apply str_float_inj in E. congruence.
Qed.

(** A printed number is an optional minus sign followed by a non-empty text
    without [-] or [+]. *)
Lemma str_number_shape (n : number) :
  exists sg u,
    str_number n = sg ++ u /\ (sg = "" \/ sg = "-") /\
    occurs "-"%char u = false /\ occurs "+"%char u = false /\ u <> "".
Proof.
  assert (Hu : forall d, d <> Nil -> NilEmpty.string_of_uint d <> "").
  { intros d Hd. destruct d; simpl; congruence. }
  destruct n as [b|z|f]; simpl.
  - exists "". destruct b; eexists; repeat split; auto; discriminate.
  - unfold str_Z.
    assert (Hz : exists d, d <> Nil /\
              (Z.to_int z = Pos d \/ Z.to_int z = Neg d)).
    { destruct z as [|p|p]; simpl.
      - exists (D0 Nil). split; [discriminate|auto].
      - exists (Pos.to_uint p). split; [apply DecimalPos.Unsigned.to_uint_nonnil|auto].
      - exists (Pos.to_uint p). split; [apply DecimalPos.Unsigned.to_uint_nonnil|auto]. }
    destruct Hz as (d & Hd & [E|E]); rewrite E; simpl.
    + exists "", (NilEmpty.string_of_uint d).
      repeat split; auto; try (apply occurs_uint; reflexivity).
    + exists "-", (NilEmpty.string_of_uint d).
      repeat split; auto; try (apply occurs_uint; reflexivity).
  - unfold str_float.
    exists (if f_neg f then "-" else ""),
           (NilEmpty.string_of_uint (N.to_uint (f_int f))
            ++ "." ++ NilEmpty.string_of_uint (f_frac f)).
    repeat split.
    + destruct (f_neg f); auto.
    + rewrite occurs_app. simpl.
      rewrite !occurs_uint by reflexivity. reflexivity.
    + rewrite occurs_app. simpl.
      rewrite !occurs_uint by reflexivity. reflexivity.
    + destruct (NilEmpty.string_of_uint (N.to_uint (f_int f))); discriminate.
Qed.

Lemma label_inj (r r' : interval) : label r = label r' -> r = r'.
Proof.
  destruct r as [a b], r' as [a' b']. unfold label; simpl. intro E.
  destruct (str_number_shape a) as (sg & u & Ea & Hsg & Hm & _ & Hne).
  destruct (str_number_shape a') as (sg' & u' & Ea' & Hsg' & Hm' & _ & Hne').
  assert (H : str_number a = str_number a' /\ str_number b = str_number b').
  { rewrite Ea, Ea' in *.
    destruct Hsg as [-> | ->], Hsg' as [-> | ->]; simpl in E.
    - apply app_sep_inj in E; auto.
    - destruct u as [|c u]; [congruence|]. simpl in E. injection E as Ec _.
      subst c. simpl in Hm. discriminate Hm.
    - destruct u' as [|c u']; [congruence|]. simpl in E. injection E as Ec _.
      subst c. simpl in Hm'. discriminate Hm'.
    - injection E as E. apply app_sep_inj in E; auto.
      destruct E; split; simpl; congruence. }
  destruct H as [H1 H2].
  apply str_number_inj in H1, H2. congruence.
Qed.

Lemma label_not_overflow (r : interval) (hi : number) :
  label r <> overflow_label hi.
Proof.
  destruct r as [a b]. unfold label, overflow_label; simpl.
  destruct (str_number_shape a) as (sg & u & Ea & Hsg & _ & Hp & Hne).
  rewrite Ea. destruct u as [|c u]; [congruence|].
  destruct Hsg as [-> | ->]; simpl; intro E; injection E as Ec _.
  - subst c. simpl in Hp. discriminate Hp.
  - discriminate Ec.
Qed.

(** ** Dictionaries *)

Lemma dict_get_set_same (k : string) (v : bin) (d : pydict) :
  dict_get k (dict_set k v d) = Some v.
Proof.
  induction d as [|[k' v'] d IH]; simpl.
  - rewrite String.eqb_refl. reflexivity.
  - destruct (String.eqb k' k) eqn:E; simpl; rewrite E; auto.
Qed.

Lemma dict_get_set_other (k k' : string) (v : bin) (d : pydict) :
  k <> k' -> dict_get k (dict_set k' v d) = dict_get k d.
Proof.
  intro Hk. induction d as [|[k0 v0] d IH]; simpl.
  - destruct (String.eqb_spec k' k); [congruence|reflexivity].
  - destruct (String.eqb_spec k0 k'); simpl.
    + subst k0. destruct (String.eqb_spec k' k); [congruence|reflexivity].
    + destruct (String.eqb_spec k0 k); auto.
Qed.

Lemma dict_set_In (e : string * bin) (k : string) (v : bin) (d : pydict) :
  In e (dict_set k v d) -> In e d \/ e = (k, v).
Proof.
  induction d as [|[k0 v0] d IH]; simpl.
  - intros [<-|[]]. auto.
  - destruct (String.eqb_spec k0 k); simpl.
    + subst k0. intros [<-|H]; auto.
    + intros [<-|H]; auto. destruct (IH H); auto.
Qed.

Lemma dict_set_fresh (k : string) (v : bin) (d : pydict) :
  ~ In k (map fst d) -> dict_set k v d = (d ++ [(k, v)])%list.
Proof.
  induction d as [|[k0 v0] d IH]; simpl; intro H; [reflexivity|].
  destruct (String.eqb_spec k0 k); [tauto|].
  rewrite IH; tauto.
Qed.

Lemma group_loop_keeps (vals : list number) (rows : list interval)
      (d : pydict) (r : interval) :
  dict_get (label r) d = Some (bin_of vals r) ->
  dict_get (label r) (group_loop vals rows d) = Some (bin_of vals r).
Proof.
  revert d. induction rows as [|r0 rows IH]; simpl; intros d H; [exact H|].
  apply IH.
  destruct (String.eqb_spec (label r) (label r0)) as [E|N].
  - apply label_inj in E. subst r0. apply dict_get_set_same.
  - rewrite dict_get_set_other; assumption.
Qed.

Lemma group_loop_get (vals : list number) (rows : list interval)
      (d : pydict) (r : interval) :
  In r rows ->
  dict_get (label r) (group_loop vals rows d) = Some (bin_of vals r).
Proof.
  revert d. induction rows as [|r0 rows IH]; simpl; intros d H; [destruct H|].
  destruct H as [E|H].
  - subst r0. apply group_loop_keeps, dict_get_set_same.
  - apply IH, H.
Qed.

Lemma group_loop_In (vals : list number) (rows : list interval)
      (d : pydict) (e : string * bin) :
  In e (group_loop vals rows d) ->
  In e d \/ exists r, In r rows /\ e = (label r, bin_of vals r).
Proof.
  revert d. induction rows as [|r0 rows IH]; simpl; intros d H; [auto|].
  destruct (IH _ H) as [H1|(r & Hr & E)].
  - apply dict_set_In in H1. destruct H1 as [H1|H1]; [auto|].
    right. exists r0. auto.
  - right. exists r. auto.
Qed.

Lemma group_loop_fresh (vals : list number) (rows : list interval) (d : pydict) :
  NoDup (map label rows) ->
  (forall r, In r rows -> ~ In (label r) (map fst d)) ->
  group_loop vals rows d = (d ++ entries_of vals rows)%list.
Proof.
  revert d. induction rows as [|r0 rows IH]; simpl; intros d ND Hd.
  - rewrite app_nil_r. reflexivity.
  - inversion ND as [|x l Hx ND']; subst.
    rewrite dict_set_fresh by (apply Hd; auto).
    rewrite IH; auto.
    + rewrite <- app_assoc. reflexivity.
    + intros r Hr. rewrite map_app, in_app_iff. simpl.
      intros [H|[H|[]]].
      * exact (Hd r (or_intror Hr) H).
      * apply Hx. rewrite H. apply in_map, Hr.
Qed.



(** ** Arrays of intervals *)

Lemma frac_value_zero : (frac_value (D0 Nil) == 0)%Q.
Proof. vm_compute. reflexivity. Qed.

Lemma float_of_Z_value (z : Z) : (float_value (float_of_Z z) == inject_Z z)%Q.
Proof.
  unfold float_of_Z, float_value; simpl f_neg; simpl f_int; simpl f_frac.
  rewrite N2Z.inj_abs_N.
  destruct (Z.ltb_spec z 0); rewrite frac_value_zero, Qplus_0_r.
  - rewrite Z.abs_neq by lia. unfold Qeq; simpl. lia.
  - rewrite Z.abs_eq by lia. reflexivity.
Qed.

Lemma round_int_exact (z : Z) : exact_int z = true -> round_int z = z.
Proof.
  intro H. apply exact_int_iff in H. unfold round_int.
  rewrite (Qfloor_comp _ _ (fl_int z H)). apply Qfloor_Z.
Qed.

Lemma value_float_of_Z (z : Z) :
  exact_int z = true -> (value (NFloat (float_of_Z z)) == inject_Z z)%Q.
Proof.
  intro H. cbn [value]. rewrite (fl_eq _ _ (float_of_Z_value z)).
  apply fl_int, exact_int_iff, H.
Qed.



Lemma all_pairs_py (rows : list interval) :
  all_pairs (map py_interval rows) = Some rows.
Proof.
  induction rows as [|[a b] rows IH]; simpl; [reflexivity|].
  rewrite IH. reflexivity.
Qed.

Lemma np_array_py (np : list pyval -> option exn) (rows : list interval) :
  np_array np (map py_interval rows) = Ok (Arr2 (cast_rows rows)).
Proof. unfold np_array. rewrite all_pairs_py. reflexivity. Qed.

Lemma check_loop_valid (np : list pyval -> option exn) (a : ndarray)
      (rest : list interval) :
  forall (iv : ivar) (idx : nat),
    to_array np iv = Ok (IArr a) ->
    well_ordered rest = true ->
    check_loop np iv idx (map py_interval rest)
    = Ok (match rest with [] => iv | _ => IArr a end).
Proof.
  induction rest as [|[x y] rest IH]; simpl; intros iv idx Ha Hw; [reflexivity|].
  apply andb_true_iff in Hw. destruct Hw as [Hxy Hw].
  simpl in Hxy. rewrite Hxy, Ha. simpl.
  rewrite (IH (IArr a) (S idx) eq_refl Hw). destruct rest; reflexivity.
Qed.

(** Valid intervals pass the check and leave [intervals] an array. *)
Lemma check_intervals_valid (np : list pyval -> option exn) (rows : list interval) :
  well_ordered rows = true -> rows <> [] ->
  check_intervals np (py_intervals rows) = Ok (IArr (Arr2 (cast_rows rows))).
Proof.
  intros Hw Hne. unfold check_intervals, py_intervals.
  rewrite (check_loop_valid np (Arr2 (cast_rows rows))); auto.
  - destruct rows; [congruence|reflexivity].
  - simpl. rewrite np_array_py. reflexivity.
Qed.

Lemma check_loop_inv (np : list pyval -> option exn) (rest : list pyval) :
  forall (iv iv' : ivar) (idx : nat),
    check_loop np iv idx rest = Ok iv' ->
    exists rows, rest = map py_interval rows /\ well_ordered rows = true.
Proof.
  induction rest as [|val rest IH]; intros iv iv' idx H.
  - exists []. auto.
  - simpl in H.
    destruct val as [|n|s|elems|elems|c]; try discriminate H.
    destruct elems as [|v0 [|v1 [|v2 elems]]]; try discriminate H.
    destruct v0 as [|a|?|?|?|?]; try discriminate H.
    destruct v1 as [|b|?|?|?|?]; try discriminate H.
    destruct (num_lt a b) eqn:Hab; simpl in H; [|discriminate H].
    destruct (to_array np iv) as [iv1|e]; simpl in H; [|discriminate H].
    destruct (IH _ _ _ H) as (rows & -> & Hw).
    exists ((a, b) :: rows). simpl. rewrite Hab, Hw. auto.
Qed.

(** Whenever the check succeeds, [intervals] is left an n x 2 array, or is
    the empty list the caller gave. *)
Lemma check_intervals_resolved (np : list pyval -> option exn)
      (intervals : pyval) (iv : ivar) :
  check_intervals np intervals = Ok iv ->
  (intervals = PyList [] /\ iv = IList []) \/
  exists rows, rows <> [] /\ well_ordered rows = true /\
               intervals = py_intervals rows /\ iv = IArr (Arr2 (cast_rows rows)).
Proof.
  intro H. destruct intervals as [| | |l| |]; try discriminate H.
  simpl in H. destruct (check_loop_inv _ _ _ _ _ H) as (rows & -> & Hw).
  destruct rows as [|r rows].
  - left. simpl in H. inversion H. auto.
  - right. exists (r :: rows). repeat split; auto; [discriminate|].
    pose proof (check_intervals_valid np (r :: rows) Hw) as E.
    unfold check_intervals, py_intervals in E. rewrite E in H by discriminate.
    congruence.
Qed.



Lemma cast_rows_length (rows : list interval) :
  List.length (cast_rows rows) = List.length rows.
Proof. unfold cast_rows. apply length_map. Qed.


(** ** Grouping *)

Lemma dict_get_In (k : string) (v : bin) (d : pydict) :
  dict_get k d = Some v -> In (k, v) d.
Proof.
  induction d as [|[k0 v0] d IH]; simpl; [discriminate|].
  destruct (String.eqb_spec k0 k).
  - intros [= ->]. subst. auto.
  - auto.
Qed.

(** With at least one row, grouping returns: the bins of the rows, then
    the overflow bin when it is asked for. *)
Lemma grouping_rows (vals : list number) (r : interval) (rest : list interval)
      (higher_vals : bool) :
  grouping vals (IArr (Arr2 (r :: rest))) higher_vals =
  Ok (if higher_vals
      then dict_set (overflow_label (snd (last rest r)))
                    (overflow_bin vals (snd (last rest r)))
                    (group_loop vals (r :: rest) [])
      else group_loop vals (r :: rest) []).
Proof. destruct higher_vals; reflexivity. Qed.

(** Every entry of the result is the bin of a row, or the overflow bin. *)
Lemma grouping_entries (vals : list number) (r : interval) (rest : list interval)
      (higher_vals : bool) (d : pydict) (e : string * bin) :
  grouping vals (IArr (Arr2 (r :: rest))) higher_vals = Ok d ->
  In e d ->
  (exists r', In r' (r :: rest) /\ e = (label r', bin_of vals r')) \/
  (higher_vals = true /\
   e = (overflow_label (snd (last rest r)), overflow_bin vals (snd (last rest r)))).
Proof.
  rewrite grouping_rows.
  remember (group_loop vals (r :: rest) []) as g eqn:Hg.
  intros [= <-] He.
  destruct higher_vals.
  - apply dict_set_In in He. destruct He as [He|He]; [|auto].
    subst g. apply group_loop_In in He. destruct He as [[]|He]. left. exact He.
  - subst g. apply group_loop_In in He. destruct He as [[]|He]. left. exact He.
Qed.

Lemma grouping_row_entry (vals : list number) (r : interval) (rest : list interval)
      (higher_vals : bool) (d : pydict) (r' : interval) :
  grouping vals (IArr (Arr2 (r :: rest))) higher_vals = Ok d ->
  In r' (r :: rest) ->
  dict_get (label r') d = Some (bin_of vals r').
Proof.
  rewrite grouping_rows.
  remember (group_loop vals (r :: rest) []) as g eqn:Hg.
  intros [= <-] Hr.
  destruct higher_vals.
  - rewrite dict_get_set_other by apply label_not_overflow.
    subst g. apply group_loop_get, Hr.
  - subst g. apply group_loop_get, Hr.
Qed.





Lemma exact_rows_In (rows : list interval) (r : interval) :
  forallb exact_row rows = true -> In r rows -> exact_row r = true.
Proof. rewrite forallb_forall. auto. Qed.

Lemma exact_In (vals : list number) (v : number) :
  forallb exact vals = true -> In v vals -> exact v = true.
Proof. rewrite forallb_forall. auto. Qed.

(** On exact numbers, the bin of an interval holds the values with
    [lo < v <= hi], the overflow bin those above the bound. *)
Lemma bin_of_between (vals : list number) (r : interval) :
  forallb exact vals = true -> exact_row r = true ->
  bin_of vals r = (filter (between (fst r) (snd r)) vals,
                   List.length (filter (between (fst r) (snd r)) vals)).
Proof.
  intros Hv Hr. unfold bin_of. rewrite filter_in_interval by assumption. reflexivity.
Qed.

Lemma overflow_bin_above (vals : list number) (hi : number) :
  forallb exact vals = true -> exact hi = true ->
  overflow_bin vals hi = (filter (above hi) vals, List.length (filter (above hi) vals)).
Proof.
  intros Hv Hh. unfold overflow_bin. rewrite filter_np_gt by assumption. reflexivity.
Qed.



Lemma plain_values_exact (vals : list number) :
  forallb plain_value vals = true -> forallb exact vals = true.
Proof.
  rewrite !forallb_forall. intros H v Hv. specialize (H v Hv).
  destruct v; [reflexivity|exact H|reflexivity].
Qed.


(** ** Ordered intervals *)


Lemma well_ordered_cons (r : interval) (rows : list interval) :
  well_ordered (r :: rows) = true ->
  (value (fst r) < value (snd r))%Q /\ well_ordered rows = true.
Proof.
  simpl. rewrite andb_true_iff. unfold num_lt. rewrite Qlt_bool_iff. tauto.
Qed.

Lemma ascending_eq (r r' : interval) (rows : list interval) :
  ascending (r :: r' :: rows)
  = Qle_bool (value (snd r)) (value (fst r')) && ascending (r' :: rows).
Proof. reflexivity. Qed.

Lemma contiguous_eq (r r' : interval) (rows : list interval) :
  contiguous (r :: r' :: rows)
  = Qeq_bool (value (snd r)) (value (fst r')) && contiguous (r' :: rows).
Proof. reflexivity. Qed.

Lemma ascending_cons (r r' : interval) (rows : list interval) :
  ascending (r :: r' :: rows) = true ->
  (value (snd r) <= value (fst r'))%Q /\ ascending (r' :: rows) = true.
Proof.
  rewrite ascending_eq, andb_true_iff, Qle_bool_iff. tauto.
Qed.

Lemma contiguous_cons (r r' : interval) (rows : list interval) :
  contiguous (r :: r' :: rows) = true ->
  (value (snd r) == value (fst r'))%Q /\ contiguous (r' :: rows) = true.
Proof.
  rewrite contiguous_eq, andb_true_iff, Qeq_bool_iff. tauto.
Qed.

Lemma contiguous_ascending (rows : list interval) :
  contiguous rows = true -> ascending rows = true.
Proof.
  induction rows as [|r [|r' rows] IH]; try reflexivity.
  intro H. apply contiguous_cons in H. destruct H as [E H].
  rewrite ascending_eq, (IH H), andb_true_r.
  apply Qle_bool_iff. rewrite E. apply Qle_refl.
Qed.

(** In an ascending list of intervals the first one ends before any later
    one starts. *)
Lemma head_before (rows : list interval) :
  forall r, well_ordered rows = true -> ascending (r :: rows) = true ->
            forall r', In r' rows -> (value (snd r) <= value (fst r'))%Q.
Proof.
  induction rows as [|r1 rows IH]; intros r Hw Ha r' Hr'; [destruct Hr'|].
  apply ascending_cons in Ha. destruct Ha as [H01 Ha].
  apply well_ordered_cons in Hw. destruct Hw as [H1 Hw].
  destruct Hr' as [<-|Hr']; [exact H01|].
  pose proof (IH r1 Hw Ha r' Hr'). lra.
Qed.

Lemma ascending_tail (r : interval) (rows : list interval) :
  ascending (r :: rows) = true -> ascending rows = true.
Proof.
  destruct rows as [|r' rows]; [reflexivity|].
  intro H. apply ascending_cons in H. tauto.
Qed.

Lemma last_shift {A : Type} (l : list A) (a d : A) :
  last (a :: l) d = last l a.
Proof.
  revert a d. induction l as [|b l IH]; intros a d; [reflexivity|].
  change (last (a :: b :: l) d) with (last (b :: l) d).
  rewrite (IH b d), (IH b a). reflexivity.
Qed.




(** *** Intervals with the same bounds *)

Lemma same_bounds_in (r r' : interval) (v : number) :
  same_bounds r r' ->
  between (fst r') (snd r') v = between (fst r) (snd r) v.
Proof. intros [H1 H2]. apply between_ext; assumption. Qed.




Lemma same_bounds_ascending (rows rows' : list interval) :
  Forall2 same_bounds rows rows' -> ascending rows' = ascending rows.
Proof.
  induction 1 as [|x y l l' [H1 H2] H IH]; [reflexivity|].
  destruct H as [|x1 y1 l1 l1' [H3 H4] H]; [reflexivity|].
  rewrite !ascending_eq. rewrite IH. f_equal.
  apply eq_true_iff_eq. rewrite !Qle_bool_iff, H2, H3. reflexivity.
Qed.





(** ** Counting the values of the bins *)




Lemma above_ext (a b : number) (vals : list number) :
  (value a == value b)%Q -> filter (above a) vals = filter (above b) vals.
Proof.
  intro E. apply filter_ext. intro v. apply eq_true_iff_eq.
  rewrite !above_iff, E. reflexivity.
Qed.


Lemma ascending_NoDup (rows : list interval) :
  well_ordered rows = true -> ascending rows = true -> NoDup rows.
Proof.
  induction rows as [|r rows IH]; intros Hw Ha; constructor.
  - intro Hin.
    pose proof (well_ordered_cons _ _ Hw) as [Hr Hw1].
    pose proof (head_before rows r Hw1 Ha r Hin). lra.
  - pose proof (well_ordered_cons _ _ Hw) as [_ Hw1].
    apply IH; [exact Hw1|exact (ascending_tail _ _ Ha)].
Qed.

Lemma NoDup_labels (rows : list interval) : NoDup rows -> NoDup (map label rows).
Proof.
  induction 1 as [|r l Hr ND IH]; simpl; constructor; [|exact IH].
  intro Hin. apply in_map_iff in Hin. destruct Hin as (r' & E & Hr').
  apply label_inj in E. congruence.
Qed.

Lemma ascending_labels (rows : list interval) :
  well_ordered rows = true -> ascending rows = true -> NoDup (map label rows).
Proof. intros Hw Ha. apply NoDup_labels, ascending_NoDup; assumption. Qed.

Lemma entries_keys (vals : list number) (rows : list interval) :
  map fst (entries_of vals rows) = map label rows.
Proof. unfold entries_of. rewrite map_map. reflexivity. Qed.


Lemma entries_exact (vals : list number) (rows : list interval) :
  forallb exact vals = true -> forallb exact_row rows = true ->
  entries_of vals rows = exact_entries vals rows.
Proof.
  intros Hv Hr. unfold entries_of, exact_entries. apply map_ext_in.
  intros r Hin. f_equal. apply bin_of_between; [exact Hv|].
  exact (exact_rows_In _ _ Hr Hin).
Qed.

(** With pairwise different rows the dictionary lists the bins of the
    rows in order, then the overflow bin when it is asked for. *)
Lemma grouping_distinct (vals : list number) (r : interval) (rest : list interval)
      (higher_vals : bool) :
  NoDup (r :: rest) ->
  grouping vals (IArr (Arr2 (r :: rest))) higher_vals
  = Ok (entries_of vals (r :: rest)
        ++ if higher_vals
           then [(overflow_label (snd (last rest r)),
                  overflow_bin vals (snd (last rest r)))]
           else [])%list.
Proof.
  intro ND. rewrite grouping_rows. f_equal.
  rewrite (group_loop_fresh vals (r :: rest) []);
    [|apply NoDup_labels, ND|intros r' _ []].
  rewrite app_nil_l. destruct higher_vals; [|rewrite app_nil_r; reflexivity].
  apply dict_set_fresh.
  rewrite entries_keys. intro Hin. apply in_map_iff in Hin.
  destruct Hin as (r' & E & _). exact (label_not_overflow _ _ E).
Qed.

Lemma grouping_ascending (vals : list number) (r : interval) (rest : list interval) :
  well_ordered (r :: rest) = true -> ascending (r :: rest) = true ->
  grouping vals (IArr (Arr2 (r :: rest))) true
  = Ok (entries_of vals (r :: rest)
        ++ [(overflow_label (snd (last rest r)),
             overflow_bin vals (snd (last rest r)))])%list.
Proof.
  intros Hw Ha. apply (grouping_distinct vals r rest true).
  apply ascending_NoDup; assumption.
Qed.

Lemma last_In {A : Type} (l : list A) (a : A) : In (last l a) (a :: l).
Proof.
  revert a. induction l as [|b l IH]; intro a; [left; reflexivity|].
  rewrite last_shift. right. apply IH.
Qed.

Lemma exact_last (r : interval) (rest : list interval) :
  forallb exact_row (r :: rest) = true -> exact (snd (last rest r)) = true.
Proof.
  intro H. pose proof (exact_rows_In _ _ H (last_In rest r)) as Hr.
  apply andb_true_iff in Hr. tauto.
Qed.

(** The same with the bins written with the exact comparisons. *)
Lemma grouping_distinct_exact (vals : list number) (r : interval)
      (rest : list interval) (higher_vals : bool) :
  forallb exact vals = true -> forallb exact_row (r :: rest) = true ->
  NoDup (r :: rest) ->
  grouping vals (IArr (Arr2 (r :: rest))) higher_vals
  = Ok (exact_entries vals (r :: rest)
        ++ if higher_vals
           then [(overflow_label (snd (last rest r)),
                  exact_overflow vals (snd (last rest r)))]
           else [])%list.
Proof.
  intros Hv Hr ND. rewrite (grouping_distinct vals r rest higher_vals ND).
  rewrite (entries_exact vals (r :: rest) Hv Hr).
  destruct higher_vals; [|reflexivity].
  rewrite (overflow_bin_above vals _ Hv (exact_last r rest Hr)). reflexivity.
Qed.


(** The same interval again and again makes one bin. *)
Lemma group_loop_repeat (vals : list number) (r : interval) (n : nat) :
  group_loop vals (repeat r n) [(label r, bin_of vals r)]
  = [(label r, bin_of vals r)].
Proof.
  induction n as [|n IH]; [reflexivity|].
  cbn [repeat group_loop dict_set]. rewrite String.eqb_refl. exact IH.
Qed.

Lemma grouping_repeat (vals : list number) (r : interval) (n : nat) :
  grouping vals (IArr (Arr2 (r :: repeat r n))) true
  = Ok [(label r, bin_of vals r);
        (overflow_label (snd r), overflow_bin vals (snd r))].
Proof.
  rewrite grouping_rows.
  change (group_loop vals (r :: repeat r n) [])
    with (group_loop vals (repeat r n) [(label r, bin_of vals r)]).
  rewrite group_loop_repeat.
  assert (El : last (repeat r n) r = r).
  { clear. induction n as [|n IH]; [reflexivity|].
    cbn [repeat]. rewrite last_shift. exact IH. }
  rewrite El, dict_set_fresh; [reflexivity|].
  cbn [map fst]. intros [E|[]]. exact (label_not_overflow _ _ E).
Qed.

(** ** The whole function on the caller's intervals *)

Lemma group_series_custom (np : list pyval -> option exn) (series : series_arg)
      (rows : list interval) (higher_vals : bool) (bar_color : pyval)
      (vals : list number) (color : string) :
  check_series series = Ok vals ->
  check_bar_color bar_color = Ok color ->
  well_ordered rows = true -> rows <> [] ->
  group_series np series (py_intervals rows) higher_vals bar_color
  = (d <- grouping vals (IArr (Arr2 (cast_rows rows))) higher_vals ;;
     Ok (color, d)).
Proof.
  intros Hs Hc Hw Hne. unfold group_series. rewrite Hs, Hc. simpl bind.
  pose proof (check_intervals_valid np rows Hw Hne) as E.
  change (check_loop np (IList (map py_interval rows)) 0 (map py_interval rows)
          = Ok (IArr (Arr2 (cast_rows rows)))) in E.
  rewrite E. reflexivity.
Qed.

Lemma cast_rows_cons (rows : list interval) :
  rows <> [] -> exists r' rest', cast_rows rows = r' :: rest'.
Proof.
  intro Hne. pose proof (cast_rows_length rows) as Hl.
  destruct (cast_rows rows) as [|r' rest'].
  - destruct rows; [congruence|discriminate Hl].
  - eauto.
Qed.

Lemma dict_set_keys (k : string) (v : bin) (d : pydict) :
  NoDup (map fst d) -> NoDup (map fst (dict_set k v d)).
Proof.
  induction d as [|[k0 v0] d IH]; simpl; intro H.
  - constructor; [intros []|constructor].
  - inversion H as [|x l Hx Hd]; subst.
    destruct (String.eqb_spec k0 k); simpl.
    + constructor; assumption.
    + constructor; [|apply IH, Hd].
      intro Hin. apply in_map_iff in Hin. destruct Hin as ([k1 v1] & E & Hin).
      simpl in E. subst k1. apply dict_set_In in Hin.
      destruct Hin as [Hin|Hin]; [|congruence].
      apply Hx. apply in_map_iff. exists (k0, v1). auto.
Qed.

Lemma group_loop_keys (vals : list number) (rows : list interval) (d : pydict) :
  NoDup (map fst d) -> NoDup (map fst (group_loop vals rows d)).
Proof.
  revert d. induction rows as [|r rows IH]; simpl; intros d H; [exact H|].
  apply IH, dict_set_keys, H.
Qed.

(** No key occurs twice in the dictionary grouping returns. *)
Lemma grouping_keys (vals : list number) (iv : ivar) (higher_vals : bool)
      (d : pydict) :
  grouping vals iv higher_vals = Ok d -> NoDup (map fst d).
Proof.
  unfold grouping. destruct higher_vals.
  - destruct (last_upper iv) as [hi|e]; simpl; [|discriminate].
    intros [= <-]. apply dict_set_keys, group_loop_keys. constructor.
  - intros [= <-]. apply group_loop_keys. constructor.
Qed.















(** ** Checks on the arguments *)

Lemma string_app_assoc (a b c : string) : (a ++ b) ++ c = a ++ (b ++ c).
Proof. induction a as [|x a IH]; simpl; [|rewrite IH]; reflexivity. Qed.

Lemma rgb_ok_iff (v : pyval) : rgb_ok v = true <-> int_in_0_255 v.
Proof.
  destruct v as [|[b|z|f]|s|l|l|c]; simpl; try (split; [discriminate|tauto]).
  - destruct b; simpl; tauto.
  - rewrite andb_true_iff, !Z.leb_le. tauto.
Qed.

Lemma forallb_rgb_ok (l : list pyval) :
  forallb (fun b => b) (map rgb_ok l) = false <->
  exists v, In v l /\ ~ int_in_0_255 v.
Proof.
  induction l as [|x l IH]; simpl.
  - split; [discriminate|intros (v & [] & _)].
  - rewrite andb_false_iff, IH. split.
    + intros [H|(v & Hv & Hn)].
      * exists x. split; [auto|]. rewrite <- rgb_ok_iff, H. discriminate.
      * exists v. auto.
    + intros (v & [<-|Hv] & Hn).
      * left. destruct (rgb_ok x) eqn:E; [|reflexivity].
        apply rgb_ok_iff in E. contradiction.
      * right. exists v. auto.
Qed.

(** C8: for a bar colour given as a tuple or a list, the check fails with a
    ValueError exactly when the length is not 3 or some element is not an
    integer of [0, 255] (so (256,0,0) is rejected); otherwise the colour
    becomes the text [rgb(r, g, b)], e.g. (255,0,0) becomes
    [rgb(255, 0, 0)]. *)
Theorem bar_color_triple_checked :
  (forall (l : list pyval) (c : pyval),
      c = PyTuple l \/ c = PyList l ->
      ((List.length l <> 3%nat \/ exists v, In v l /\ ~ int_in_0_255 v) <->
       exists m, check_bar_color c = Raise (ValueError m)) /\
      (forall r g b : number,
          l = [PyNum r; PyNum g; PyNum b] ->
          int_in_0_255 (PyNum r) -> int_in_0_255 (PyNum g) ->
          int_in_0_255 (PyNum b) ->
          check_bar_color c
          = Ok ("rgb(" ++ str_number r ++ ", " ++ str_number g ++ ", "
                ++ str_number b ++ ")"))) /\
  check_bar_color (PyTuple [PyNum (NInt 255); PyNum (NInt 0); PyNum (NInt 0)])
  = Ok "rgb(255, 0, 0)" /\
  exists m,
    check_bar_color (PyTuple [PyNum (NInt 256); PyNum (NInt 0); PyNum (NInt 0)])
    = Raise (ValueError m).
Proof.
  split; [|split; [reflexivity|eexists; reflexivity]].
  intros l c Hc.
  assert (E : check_bar_color c = check_bar_color (PyTuple l))
    by (destruct Hc as [-> | ->]; reflexivity).
  rewrite E. clear E Hc c. split.
  - unfold check_bar_color.
    destruct (Nat.eqb_spec (List.length l) 3) as [Hl|Hl]; simpl.
    + destruct (forallb (fun b => b) (map rgb_ok l)) eqn:Hf.
      * split; [|intros (m & H); discriminate H].
        intros [H|H]; [contradiction|].
        apply forallb_rgb_ok in H. congruence.
      * split; [eauto|]. intros _. right. apply forallb_rgb_ok, Hf.
    + split; [eauto|]. intros _. left. exact Hl.
  - intros r g b -> Hr Hg Hb. unfold check_bar_color.
    cbn [List.length Nat.eqb negb map forallb].
    apply rgb_ok_iff in Hr, Hg, Hb. rewrite Hr, Hg, Hb.
    cbn [andb numbers_of flat_map]. unfold str_tuple.
    change ([r] ++ [g] ++ [b] ++ [])%list with [r; g; b].
    cbn [map join]. rewrite !string_app_assoc. reflexivity.
Qed.

Lemma to_array_idem (np : list pyval -> option exn) (iv iv' : ivar) :
  to_array np iv = Ok iv' -> to_array np iv' = Ok iv'.
Proof.
  destruct iv as [l|a]; simpl.
  - destruct (np_array np l); simpl; [|discriminate]. intros [= <-]. reflexivity.
  - intros [= <-]. reflexivity.
Qed.

(** The loop over a prefix of valid intervals: [intervals] is converted
    once, and the walk goes on behind the prefix. *)
Lemma check_loop_prefix (np : list pyval -> option exn) (pre : list interval)
      (tail : list pyval) :
  forall (iv : ivar) (idx : nat),
    well_ordered pre = true ->
    check_loop np iv idx (map py_interval pre ++ tail)%list =
    match pre with
    | [] => check_loop np iv idx tail
    | _ => iv' <- to_array np iv ;;
           check_loop np iv' (idx + List.length pre) tail
    end.
Proof.
  induction pre as [|[x y] pre IH]; intros iv idx Hw; [reflexivity|].
  apply well_ordered_cons in Hw. destruct Hw as [Hxy Hw].
  apply Qlt_bool_iff in Hxy. simpl in Hxy.
  cbn [map List.app check_loop py_interval fst snd]. unfold num_lt. rewrite Hxy.
  cbn [negb].
  destruct (to_array np iv) as [iv1|e] eqn:Ea; simpl bind; [|reflexivity].
  rewrite (IH iv1 (S idx) Hw).
  destruct pre as [|p pre]; simpl List.length.
  - rewrite Nat.add_1_r. reflexivity.
  - rewrite (to_array_idem np iv iv1 Ea). simpl bind.
    f_equal. lia.
Qed.





(** C10: the empty list passes the intervals check untouched; without the
    overflow bin the result has no bin at all; with it, reading the last
    interval of the empty list raises IndexError. *)
Theorem empty_intervals_list
        (np : list pyval -> option exn) (series : series_arg) (bar_color : pyval)
        (vals : list number) (color : string) :
  check_series series = Ok vals ->
  check_bar_color bar_color = Ok color ->
  check_intervals np (PyList []) = Ok (IList []) /\
  group_series np series (PyList []) false bar_color = Ok (color, []) /\
  last_upper (IList []) = Raise (IndexError [Lit "list index out of range"]) /\
  group_series np series (PyList []) true bar_color
  = Raise (IndexError [Lit "list index out of range"]).
Proof.
  intros Hs Hb. repeat split.
  - unfold group_series. rewrite Hs, Hb. reflexivity.
  - unfold group_series. rewrite Hs, Hb. reflexivity.
Qed.

(** ** The percentile *)

Lemma insert_sorted_In (x y : Q) (l : list Q) :
  In y (insert_sorted x l) <-> x = y \/ In y l.
Proof.
  induction l as [|z l IH]; simpl; [tauto|].
  destruct (Qle_bool x z); simpl; [tauto|]. rewrite IH. tauto.
Qed.

Lemma sort_In (y : Q) (l : list Q) : In y (sort l) <-> In y l.
Proof.
  induction l as [|x l IH]; simpl; [tauto|].
  rewrite insert_sorted_In, IH. tauto.
Qed.

Lemma insert_sorted_length (x : Q) (l : list Q) :
  List.length (insert_sorted x l) = S (List.length l).
Proof.
  induction l as [|z l IH]; simpl; [reflexivity|].
  destruct (Qle_bool x z); simpl; [reflexivity|]. rewrite IH. reflexivity.
Qed.

Lemma sort_length (l : list Q) : List.length (sort l) = List.length l.
Proof.
  induction l as [|x l IH]; simpl; [reflexivity|].
  rewrite insert_sorted_length, IH. reflexivity.
Qed.

Lemma insert_sorted_sorted (x : Q) (l : list Q) :
  sorted l -> sorted (insert_sorted x l).
Proof.
  induction l as [|z l IH]; simpl; intro H.
  - split; [intros y []|exact I].
  - destruct H as [Hz Hl]. destruct (Qle_bool x z) eqn:E.
    + apply Qle_bool_iff in E. simpl. split; [|split; assumption].
      intros y [<-|Hy]; [exact E|]. pose proof (Hz y Hy). lra.
    + apply Qle_bool_false_iff in E. simpl. split; [|apply IH, Hl].
      intros y Hy. apply insert_sorted_In in Hy.
      destruct Hy as [<-|Hy]; [lra|apply Hz, Hy].
Qed.

Lemma sort_sorted (l : list Q) : sorted (sort l).
Proof.
  induction l as [|x l IH]; simpl; [exact I|].
  apply insert_sorted_sorted, IH.
Qed.

Lemma sorted_nth (l : list Q) :
  sorted l ->
  forall i j, (i <= j)%nat -> (j < List.length l)%nat ->
              (nth i l 0 <= nth j l 0)%Q.
Proof.
  induction l as [|x l IH]; intros Hs i j Hij Hj; [simpl in Hj; lia|].
  destruct Hs as [Hx Hl]. destruct i as [|i], j as [|j]; simpl.
  - apply Qle_refl.
  - apply Hx, nth_In. simpl in Hj. lia.
  - lia.
  - apply IH; [exact Hl|lia|simpl in Hj; lia].
Qed.

(** One rounding of a non-negative number, as inequalities. *)
Lemma fl_upper (x : Q) : (0 <= x)%Q -> (fl x <= x * (1 + eps))%Q.
Proof. intro H. apply (fl_error x H). Qed.


Lemma fl_half : fl (1 # 2) = (1 # 2)%Q.
Proof. vm_compute. reflexivity. Qed.

Lemma fl_one : fl 1 = 1%Q.
Proof. vm_compute. reflexivity. Qed.

Lemma fl_zero : fl 0 = 0%Q.
Proof. reflexivity. Qed.

(** The correction term of the interpolation is at most the distance of
    the two neighbours. *)
Lemma lerp_term (D d u : Q) :
  (0 <= D)%Q -> (0 <= d)%Q -> (d <= D * (1 + eps))%Q ->
  (0 <= u)%Q -> (u <= 1 # 2)%Q ->
  (0 <= fl (d * u))%Q /\ (fl (d * u) <= D * ((1 + eps) * (1 + eps) * (1 # 2)))%Q.
Proof.
  intros HD Hd HdD Hu0 Hu1.
  assert (Hdu : (0 <= d * u)%Q) by (apply Qmult_le_0_compat; assumption).
  split; [apply fl_nonneg, Hdu|].
  pose proof (fl_upper (d * u) Hdu) as H.
  assert (He : (0 < eps)%Q) by reflexivity.
  assert (H1 : (d * u <= d * (1 # 2))%Q) by nra.
  assert (H2 : (d * (1 # 2) <= D * (1 + eps) * (1 # 2))%Q) by nra.
  assert (H3 : (d * u * (1 + eps) <= D * (1 + eps) * (1 # 2) * (1 + eps))%Q) by nra.
  nra.
Qed.

Lemma lerp_factor : ((1 + eps) * (1 + eps) * (1 # 2) <= 1)%Q.
Proof. vm_compute. discriminate. Qed.

Lemma lerp_fraction (t : Q) :
  (0 <= t)%Q -> (t <= 1)%Q -> (1 # 2 <= t)%Q ->
  (0 <= fl (1 - t))%Q /\ (fl (1 - t) <= 1 # 2)%Q.
Proof.
  intros H0 H1 H2. split.
  - apply fl_nonneg. lra.
  - rewrite <- fl_half. apply fl_le. lra.
Qed.

(** Between two floats the interpolation stays between them. *)
Lemma lerp_between (a b t : Q) :
  (fl a == a)%Q -> (fl b == b)%Q -> (a <= b)%Q -> (0 <= t)%Q -> (t <= 1)%Q ->
  (a <= lerp a b t)%Q /\ (lerp a b t <= b)%Q.
Proof.
  intros Ha Hb Hab Ht0 Ht1. unfold lerp.
  assert (HD : (0 <= b - a)%Q) by lra.
  pose proof (fl_nonneg _ HD) as Hd0. pose proof (fl_upper _ HD) as Hd1.
  pose proof lerp_factor as Hc.
  destruct (Qle_bool (1 # 2) t) eqn:E.
  - apply Qle_bool_iff in E.
    destruct (lerp_fraction t Ht0 Ht1 E) as [Hu0 Hu1].
    destruct (lerp_term (b - a) (fl (b - a)) (fl (1 - t)) HD Hd0 Hd1 Hu0 Hu1)
      as [Hw0 Hw1].
    set (w := fl (fl (b - a) * fl (1 - t))) in *.
    assert (Hw : (w <= b - a)%Q) by nra.
    split.
    + apply Qle_trans with (fl a); [rewrite Ha; apply Qle_refl|].
      apply fl_le. rewrite Hb. lra.
    + apply Qle_trans with (fl b); [|rewrite Hb; apply Qle_refl].
      apply fl_le. rewrite Hb. lra.
  - apply Qle_bool_false_iff in E.
    destruct (lerp_term (b - a) (fl (b - a)) t HD Hd0 Hd1 Ht0 ltac:(lra))
      as [Hw0 Hw1].
    set (w := fl (fl (b - a) * t)) in *.
    assert (Hw : (w <= b - a)%Q) by nra.
    split.
    + apply Qle_trans with (fl a); [rewrite Ha; apply Qle_refl|].
      apply fl_le. rewrite Ha. lra.
    + apply Qle_trans with (fl b); [|rewrite Hb; apply Qle_refl].
      apply fl_le. rewrite Ha. lra.
Qed.



(** The 80th percentile of non-empty data is the interpolation between two
    of the data, the first not above the second, at a fraction of
    [[0, 1]]. *)
Lemma np_percentile_between (a : list Q) :
  a <> [] ->
  exists lo hi g,
    np_percentile a 80 = Ok (lerp lo hi g) /\ In lo a /\ In hi a /\
    (lo <= hi)%Q /\ (0 <= g)%Q /\ (g <= 1)%Q.
Proof.
  intro Hne. destruct a as [|x a]; [congruence|].
  unfold np_percentile.
  set (l := x :: a). set (n := List.length l).
  set (q := fl (80 / 100)).
  set (virt := fl (inject_Z (Z.of_nat n - 1) * q)).
  assert (Hn : (1 <= n)%nat) by (unfold n, l; simpl; lia).
  assert (Hz : (0 <= inject_Z (Z.of_nat n - 1))%Q).
  { change 0%Q with (inject_Z 0). rewrite <- Zle_Qle. lia. }
  assert (Hq0 : (0 <= q)%Q) by (vm_compute; discriminate).
  assert (Hq1 : (q * (1 + eps) <= 1)%Q) by (vm_compute; discriminate).
  assert (Hprod : (0 <= inject_Z (Z.of_nat n - 1) * q)%Q)
    by (apply Qmult_le_0_compat; assumption).
  assert (Hv0 : (0 <= virt)%Q) by (apply fl_nonneg, Hprod).
  assert (Hv1 : (virt <= inject_Z (Z.of_nat n - 1))%Q).
  { pose proof (fl_upper _ Hprod) as H. fold virt in H.
    set (m := inject_Z (Z.of_nat n - 1)) in *. nra. }
  assert (Hp0 : (0 <= Qfloor virt)%Z).
  { change 0%Z with (Qfloor 0). apply Qfloor_resp_le, Hv0. }
  assert (Hp1 : (Qfloor virt <= Z.of_nat n - 1)%Z).
  { rewrite <- (Qfloor_Z (Z.of_nat n - 1)). apply Qfloor_resp_le, Hv1. }
  exists (nth (Z.to_nat (Qfloor virt)) (sort l) 0%Q).
  exists (nth (Nat.min (Z.to_nat (Qfloor virt) + 1) (n - 1)) (sort l) 0%Q).
  exists (fl (virt - inject_Z (Qfloor virt))).
  split; [reflexivity|].
  pose proof (Qfloor_le virt) as Hf1.
  pose proof (Qlt_floor virt) as Hf2. rewrite inject_Z_plus in Hf2.
  change (inject_Z 1) with 1%Q in Hf2.
  split; [|split; [|split; [|split]]].
  - apply sort_In, nth_In. rewrite sort_length. fold n. lia.
  - apply sort_In, nth_In. rewrite sort_length. fold n. lia.
  - apply sorted_nth; [apply sort_sorted|lia|]. rewrite sort_length. fold n. lia.
  - apply fl_nonneg. lra.
  - rewrite <- fl_one. apply fl_le. lra.
Qed.

(** The percentile of floats lies between two of them. *)
Lemma np_percentile_floats (a : list Q) :
  a <> [] -> (forall x, In x a -> (fl x == x)%Q) ->
  exists P lo hi,
    np_percentile a 80 = Ok P /\ In lo a /\ In hi a /\ (lo <= P)%Q /\ (P <= hi)%Q.
Proof.
  intros Hne Hfl.
  destruct (np_percentile_between a Hne)
    as (lo & hi & g & HP & Hlo & Hhi & Hle & Hg0 & Hg1).
  exists (lerp lo hi g), lo, hi. split; [exact HP|].
  split; [exact Hlo|]. split; [exact Hhi|].
  apply lerp_between; auto.
Qed.


Lemma map_value_In (vals : list number) (x : Q) :
  In x (map value vals) -> exists v, In v vals /\ x = value v.
Proof.
  intro H. apply in_map_iff in H. destruct H as (v & E & Hv). eauto.
Qed.


Lemma numeric_series_exact (vals : list number) :
  numeric_series vals = true -> forallb exact vals = true.
Proof.
  unfold numeric_series. rewrite orb_true_iff, !forallb_forall.
  intros [H|H] v Hv; specialize (H v Hv); destruct v; try discriminate H;
    try reflexivity. exact H.
Qed.

Lemma value_exact_float (v : number) : exact v = true -> (fl (value v) == value v)%Q.
Proof. apply fl_value_exact. Qed.

(** ** Floats with three decimals *)

Lemma milli_digits_all :
  forallb milli_digits_ok (map Z.of_nat (seq 0 1000)) = true.
Proof. vm_compute. reflexivity. Qed.

Lemma milli_digits_value (f : Z) :
  (0 <= f < 1000)%Z -> (frac_value (milli_digits f) == f # 1000)%Q.
Proof.
  intro Hf. apply Qeq_bool_iff.
  pose proof milli_digits_all as H. rewrite forallb_forall in H.
  apply (H f). apply in_map_iff. exists (Z.to_nat f).
  split; [lia|]. apply in_seq. lia.
Qed.

Lemma float_of_milli_value (k : Z) :
  (float_value (float_of_milli k) == k # 1000)%Q.
Proof.
  unfold float_of_milli, float_value. cbn [f_neg f_int f_frac].
  assert (Ha : (0 <= Z.abs k)%Z) by lia.
  pose proof (Z.div_mod (Z.abs k) 1000 ltac:(lia)) as Hdm.
  pose proof (Z.mod_pos_bound (Z.abs k) 1000 ltac:(lia)) as Hm.
  assert (Hq : (0 <= Z.abs k / 1000)%Z) by (apply Z.div_pos; lia).
  rewrite Z2N.id by assumption.
  assert (E : (inject_Z (Z.abs k / 1000)
               + frac_value (milli_digits (Z.abs k mod 1000))
               == Z.abs k # 1000)%Q).
  { rewrite milli_digits_value by assumption.
    unfold Qeq, Qplus, inject_Z. cbn [Qnum Qden].
    rewrite Pos.mul_1_l. lia. }
  destruct (Z.ltb_spec k 0); rewrite E.
  - unfold Qeq, Qopp. cbn [Qnum Qden]. lia.
  - rewrite Z.abs_eq by lia. reflexivity.
Qed.

(** The float of [k / 1000] is the binary64 number nearest to it. *)
Lemma milli_value (k : Z) : value (milli k) = fl (k # 1000).
Proof. cbn [value milli]. apply fl_eq, float_of_milli_value. Qed.

Lemma milli_zero : (value (milli 0) == 0)%Q.
Proof. rewrite milli_value. vm_compute. reflexivity. Qed.

Lemma milli_le (a b : Z) : (a <= b)%Z -> (value (milli a) <= value (milli b))%Q.
Proof.
  intro H. rewrite !milli_value. apply fl_le. unfold Qle. cbn [Qnum Qden]. lia.
Qed.

Lemma same_rows_eq (l l' : list interval) : same_rows l l' = true -> l = l'.
Proof.
  revert l'. induction l as [|r l IH]; intros [|r' l'] H; try discriminate H.
  - reflexivity.
  - simpl in H. apply andb_true_iff in H. destruct H as [H1 H2].
    apply String.eqb_eq, label_inj in H1. rewrite H1, (IH l' H2). reflexivity.
Qed.

(** For every unit from 0.0 to 1.0 the loop of lines 159-167 and the
    conversion of line 169 give the five intervals from one multiple of the
    unit to the next, in binary64 as in exact arithmetic. *)
Lemma default_rows_table :
  forallb default_rows_ok (map Z.of_nat (seq 0 1001)) = true.
Proof. vm_compute. reflexivity. Qed.

Lemma default_rows_checked (k : Z) :
  (0 <= k <= 1000)%Z -> default_rows_ok k = true.
Proof.
  intro Hk. pose proof default_rows_table as H. rewrite forallb_forall in H.
  apply H. apply in_map_iff. exists (Z.to_nat k).
  split; [lia|]. apply in_seq. lia.
Qed.

Lemma loop_rows_default (k : Z) :
  (0 <= k <= 1000)%Z -> loop_rows k = default_rows k.
Proof.
  intro Hk. pose proof (default_rows_checked k Hk) as H. unfold default_rows_ok in H.
  rewrite !andb_true_iff in H. apply same_rows_eq. tauto.
Qed.

Lemma default_rows_ordered (k : Z) :
  (0 < k <= 1000)%Z -> well_ordered (default_rows k) = true.
Proof.
  intro Hk. pose proof (default_rows_checked k ltac:(lia)) as H.
  unfold default_rows_ok in H. rewrite !andb_true_iff, orb_true_iff in H.
  destruct H as [[_ [H|H]] _]; [apply Z.eqb_eq in H; lia|exact H].
Qed.


Lemma default_rows_contiguous (k : Z) : contiguous (default_rows k) = true.
Proof.
  unfold default_rows. rewrite !contiguous_eq. cbn [contiguous fst snd].
  rewrite !Qeq_bool_refl. reflexivity.
Qed.

Lemma default_rows_exact (k : Z) : forallb exact_row (default_rows k) = true.
Proof. reflexivity. Qed.

Lemma rint_unit (x : Q) :
  (0 <= x)%Q -> (x <= 1000)%Q -> (0 <= rint x <= 1000)%Z.
Proof.
  intros H0 H1. split.
  - rewrite <- (rint_integer 0 0 ltac:(reflexivity)). apply rint_le, H0.
  - rewrite <- (rint_integer 1000 1000 ltac:(reflexivity)). apply rint_le, H1.
Qed.

(** The unit of a percentile of [0, 5] is a float with three decimals from
    0.0 to 1.0. *)
Lemma default_unit (P : Q) :
  (0 <= P)%Q -> (P <= 5)%Q ->
  (0 <= unit_milli P <= 1000)%Z /\
  round3 (fl (P / 5)) = float_of_milli (unit_milli P).
Proof.
  intros H0 H5. unfold unit_milli.
  assert (Hq0 : (0 <= P / 5)%Q) by (apply Qle_shift_div_l; [reflexivity|lra]).
  assert (Hq1 : (P / 5 <= 1)%Q) by (apply Qle_shift_div_r; [reflexivity|lra]).
  pose proof (fl_nonneg _ Hq0) as Hx0.
  pose proof (fl_le _ _ Hq1) as Hx1. rewrite fl_one in Hx1.
  set (x := fl (P / 5)) in *.
  assert (Hm0 : (0 <= x * 1000)%Q) by lra.
  assert (Hm1 : (x * 1000 <= 1000)%Q) by lra.
  pose proof (fl_nonneg _ Hm0) as Hf0.
  pose proof (fl_le _ _ Hm1) as Hf1.
  assert (E : fl 1000 = 1000%Q) by (vm_compute; reflexivity).
  rewrite E in Hf1.
  split; [apply rint_unit; assumption|].
  unfold round3.
  assert (En : Qlt_bool x 0 = false) by (apply Qlt_bool_false_iff; exact Hx0).
  rewrite En, andb_false_r. reflexivity.
Qed.

Lemma interval_loop_rows (advance : number -> number) (todo : nat)
      (frm to : number) :
  interval_loop advance todo frm to
  = map py_interval (interval_rows advance todo frm to).
Proof.
  revert frm to. induction todo as [|k IH]; intros frm to; [reflexivity|].
  simpl. rewrite IH. reflexivity.
Qed.

(** ** Default intervals *)

(** At or below 5 the unit is the rounded fifth of the percentile, and the
    overflow bin is switched on. *)
Lemma default_intervals_small (np : list pyval -> option exn)
      (ceil : option (Q -> Z)) (vals : list number) (P : Q) :
  np_percentile (map value vals) 80 = Ok P -> (P <= 5)%Q ->
  default_intervals np ceil vals
  = Ok (IArr (Arr2 (cast_rows
                      (interval_rows (advance_round (round3 (fl (P / 5))))
                                     nbr_of_intervals (NInt 0)
                                     (NFloat (round3 (fl (P / 5))))))), true).
Proof.
  intros HP Hle. unfold default_intervals. rewrite HP. cbn [bind].
  change (inject_Z (Z.of_nat nbr_of_intervals)) with 5%Q.
  assert (E : Qlt_bool 5 P = false) by (apply Qlt_bool_false_iff; exact Hle).
  rewrite E, interval_loop_rows, np_array_py. reflexivity.
Qed.

(** Above 5 the unit is asked of [roundup], which looks up [ceil]. *)
Lemma default_intervals_above (np : list pyval -> option exn)
      (vals : list number) (P : Q) :
  np_percentile (map value vals) 80 = Ok P -> (5 < P)%Q ->
  default_intervals np module_ceil vals
  = Raise (NameError [Lit "name 'ceil' is not defined"]).
Proof.
  intros HP Hlt. unfold default_intervals. rewrite HP. cbn [bind].
  change (inject_Z (Z.of_nat nbr_of_intervals)) with 5%Q.
  assert (E : Qlt_bool 5 P = true) by (apply Qlt_bool_iff; exact Hlt).
  rewrite E. reflexivity.
Qed.

(** Were [ceil] bound to a ceiling function [c], the unit above 5 would be
    [c] of the hundredth of the fifth of the percentile, times 100, and the
    five intervals [[0,u], [u,2u], ...], kept as computed, with the
    overflow bin switched on. *)
Lemma default_intervals_above_with_ceil (np : list pyval -> option exn)
      (c : Q -> Z) (vals : list number) (P : Q) :
  np_percentile (map value vals) 80 = Ok P -> (5 < P)%Q ->
  let u := (c (fl (fl (P / 5) / 100)) * 100)%Z in
  default_intervals np (Some c) vals
  = Ok (IArr (Arr2 [(NInt 0, NInt u); (NInt u, NInt (2 * u));
                    (NInt (2 * u), NInt (3 * u)); (NInt (3 * u), NInt (4 * u));
                    (NInt (4 * u), NInt (5 * u))]), true).
Proof.
  intros HP Hlt u. unfold default_intervals. rewrite HP. cbn [bind].
  change (inject_Z (Z.of_nat nbr_of_intervals)) with 5%Q.
  assert (E : Qlt_bool 5 P = true) by (apply Qlt_bool_iff; exact Hlt).
  rewrite E. cbn [roundup bind]. fold u.
  rewrite interval_loop_rows, np_array_py. cbn [bind].
  unfold nbr_of_intervals, cast_rows.
  cbn [interval_rows advance_int int_of result_type fold_right map fst snd
       dtype_of dtype_max cast].
  unfold advance_int. cbn [int_of]. rewrite Z.add_0_l.
  replace (u + u)%Z with (2 * u)%Z by lia.
  replace (2 * u + u)%Z with (3 * u)%Z by lia.
  replace (3 * u + u)%Z with (4 * u)%Z by lia.
  replace (4 * u + u)%Z with (5 * u)%Z by lia.
  reflexivity.
Qed.

Lemma group_series_default (np : list pyval -> option exn) (series : series_arg)
      (higher_vals : bool) (bar_color : pyval) (vals : list number)
      (color : string) :
  check_series series = Ok vals ->
  check_bar_color bar_color = Ok color ->
  group_series np series PyNone higher_vals bar_color
  = (resolved <- default_intervals np module_ceil vals ;;
     d <- grouping vals (fst resolved) (snd resolved) ;; Ok (color, d)).
Proof.
  intros Hs Hb. unfold group_series. rewrite Hs, Hb. reflexivity.
Qed.

(** With a percentile of [0, 5] the intervals are those of a unit
    [k / 1000] from 0.0 to 1.0 and the grouping has the overflow bin. *)
Lemma group_series_small (np : list pyval -> option exn) (series : series_arg)
      (higher_vals : bool) (bar_color : pyval) (vals : list number)
      (color : string) (P : Q) :
  check_series series = Ok vals ->
  check_bar_color bar_color = Ok color ->
  np_percentile (map value vals) 80 = Ok P ->
  (0 <= P)%Q -> (P <= 5)%Q ->
  (0 <= unit_milli P <= 1000)%Z /\
  round3 (fl (P / 5)) = float_of_milli (unit_milli P) /\
  group_series np series PyNone higher_vals bar_color
  = (d <- grouping vals (IArr (Arr2 (default_rows (unit_milli P)))) true ;;
     Ok (color, d)).
Proof.
  intros Hs Hb HP H0 H5.
  destruct (default_unit P H0 H5) as (Hk & Eu).
  split; [exact Hk|]. split; [exact Eu|].
  rewrite (group_series_default np series higher_vals bar_color vals color Hs Hb).
  rewrite (default_intervals_small np module_ceil vals P HP H5).
  rewrite Eu. fold (loop_rows (unit_milli P)).
  rewrite (loop_rows_default _ Hk). reflexivity.
Qed.

(** At or below 5 the overflow bin is in the result whatever the caller
    asked for. *)
Lemma default_small_has_overflow (np : list pyval -> option exn)
      (series : series_arg) (higher_vals : bool) (bar_color : pyval)
      (vals : list number) (color : string) (P : Q) :
  check_series series = Ok vals ->
  check_bar_color bar_color = Ok color ->
  np_percentile (map value vals) 80 = Ok P -> (P <= 5)%Q ->
  exists d hi,
    group_series np series PyNone higher_vals bar_color = Ok (color, d) /\
    dict_get (overflow_label hi) d = Some (overflow_bin vals hi).
Proof.
  intros Hs Hb HP Hle.
  rewrite (group_series_default np series higher_vals bar_color vals color Hs Hb).
  rewrite (default_intervals_small np module_ceil vals P HP Hle).
  cbn [bind fst snd].
  set (rows := interval_rows (advance_round (round3 (fl (P / 5)))) nbr_of_intervals
                             (NInt 0) (NFloat (round3 (fl (P / 5))))).
  assert (Hne : rows <> []) by (unfold rows, nbr_of_intervals; discriminate).
  destruct (cast_rows_cons rows Hne) as (r & rest & E).
  rewrite E, grouping_rows. cbn [bind].
  eexists. eexists. split; [reflexivity|]. apply dict_get_set_same.
Qed.

Lemma between_empty (lo : number) (vals : list number) :
  filter (between lo lo) vals = [].
Proof.
  induction vals as [|v vals IH]; [reflexivity|]. cbn [filter].
  destruct (between lo lo v) eqn:E; [|exact IH].
  apply between_iff in E. lra.
Qed.



(** ** The scenarios *)

(** With [ceil] bound to the ceiling function, the series
    [10,20,30,40,50,60] (80th percentile 50) would get the unit 100 and
    the intervals [[0,100],[100,200],[200,300],[300,400],[400,500]]. *)
Lemma default_intervals_with_ceiling_example :
  forall np : list pyval -> option exn,
    default_intervals np (Some Qceiling) (map NInt [10; 20; 30; 40; 50; 60]%Z)
    = Ok (IArr (Arr2 [(NInt 0, NInt 100); (NInt 100, NInt 200);
                      (NInt 200, NInt 300); (NInt 300, NInt 400);
                      (NInt 400, NInt 500)]), true).
Proof. intro np. vm_compute. reflexivity. Qed.

(** C1 as stated does not hold: for the series [1,2,3,4,5,100] the result
    has no bins labelled from 0.8-wide intervals and no overflow bin [+4.0]
    holding 5 and 100. *)
Lemma scenario1_not_as_stated :
  ~ (exists d,
        group_series numpy_strict (int_series [1; 2; 3; 4; 5; 100]%Z)
                     PyNone false (PyStr "#1776f2") = Ok ("#1776f2", d) /\
        map fst d = ["0.0-0.8"; "0.8-1.6"; "1.6-2.4"; "2.4-3.2"; "3.2-4.0"; "+4.0"] /\
        dict_get "+4.0" d = Some ([NInt 5; NInt 100], 2%nat)).
Proof.
  intros (d & E & Hk & _). vm_compute in E. injection E as <-.
  discriminate Hk.
Qed.

(** C1, as the program has it: for the series [1,2,3,4,5,100] with no
    intervals given, the 80th percentile is 5 (the value at index
    0.8 * 5 = 4 of the sorted data), which is not above 5, so the unit is
    round(5/5, 3) = 1.0; the intervals are [[0,1],[1,2],[2,3],[3,4],[4,5]]
    (as floats), each of the first five values falls in its own bin, and
    the overflow bin, labelled [+5.0], holds exactly 100. *)
Theorem scenario1_default_bins :
  forall (np : list pyval -> option exn) (higher_vals : bool),
    np_percentile (map value (map NInt [1; 2; 3; 4; 5; 100]%Z)) 80 = Ok 5%Q /\
    round3 (5 / 5) = PyF false 1 (D0 Nil) /\
    default_intervals np module_ceil (map NInt [1; 2; 3; 4; 5; 100]%Z)
    = Ok (IArr (Arr2 [(NFloat (PyF false 0 (D0 Nil)), NFloat (PyF false 1 (D0 Nil)));
                      (NFloat (PyF false 1 (D0 Nil)), NFloat (PyF false 2 (D0 Nil)));
                      (NFloat (PyF false 2 (D0 Nil)), NFloat (PyF false 3 (D0 Nil)));
                      (NFloat (PyF false 3 (D0 Nil)), NFloat (PyF false 4 (D0 Nil)));
                      (NFloat (PyF false 4 (D0 Nil)), NFloat (PyF false 5 (D0 Nil)))]),
          true) /\
    group_series np (int_series [1; 2; 3; 4; 5; 100]%Z) PyNone higher_vals
                 (PyStr "#1776f2")
    = Ok ("#1776f2",
          [("0.0-1.0", ([NInt 1], 1%nat)); ("1.0-2.0", ([NInt 2], 1%nat));
           ("2.0-3.0", ([NInt 3], 1%nat)); ("3.0-4.0", ([NInt 4], 1%nat));
           ("4.0-5.0", ([NInt 5], 1%nat)); ("+5.0", ([NInt 100], 1%nat))]).
Proof.
  intros np higher_vals. repeat split; vm_compute; reflexivity.
Qed.

(** C2 at a series whose 80th percentile is above 5: for
    [10,20,30,40,50,60] the percentile is 50, and resolving the default
    intervals raises NameError, since [roundup] calls [ceil], a name the
    module does not bind. *)
Theorem default_unit_above_five_raises :
  forall np : list pyval -> option exn,
    np_percentile (map value (map NInt [10; 20; 30; 40; 50; 60]%Z)) 80 = Ok 50%Q /\
    default_intervals np module_ceil (map NInt [10; 20; 30; 40; 50; 60]%Z)
    = Raise (NameError [Lit "name 'ceil' is not defined"]).
Proof.
  intro np. split; vm_compute; reflexivity.
Qed.

(** C6 at a series whose 80th percentile is above 5 ([10,20,30,40,50,60],
    percentile 50), with no intervals given: whatever [higher_vals], the
    kind of chart and the output asked for, and whatever plotly would do,
    the call returns no chart, and so no overflow bin: it raises NameError
    before the overflow flag is set. *)
Theorem default_mode_above_five_has_no_result :
  forall (np : list pyval -> option exn) (plotly_raises : plotly_call -> option exn)
         (higher_vals : bool) (kind : string) (grid : bool) (output : string),
    group_series np (int_series [10; 20; 30; 40; 50; 60]%Z) PyNone higher_vals
                 (PyStr "#1776f2")
    = Raise (NameError [Lit "name 'ceil' is not defined"]) /\
    plot_group np plotly_raises (int_series [10; 20; 30; 40; 50; 60]%Z) PyNone
               higher_vals kind grid (PyStr "#1776f2") output
    = Raise (NameError [Lit "name 'ceil' is not defined"]).
Proof.
  intros np plotly_raises higher_vals kind grid output.
  assert (E : group_series np (int_series [10; 20; 30; 40; 50; 60]%Z) PyNone
                           higher_vals (PyStr "#1776f2")
              = Raise (NameError [Lit "name 'ceil' is not defined"]))
    by (vm_compute; reflexivity).
  split; [exact E|]. unfold plot_group. rewrite E. reflexivity.
Qed.



(** ** The theorems at concrete inputs *)





Lemma bar_color_triple_checked_witness :
  check_bar_color (PyList [PyNum (NInt 12); PyNum (NInt 0); PyNum (NInt 255)])
  = Ok "rgb(12, 0, 255)" /\
  exists m, check_bar_color (PyTuple [PyNum (NInt 12); PyNum (NInt 0)])
            = Raise (ValueError m).
Proof.
  split.
  - apply (proj2 (proj1 bar_color_triple_checked
                        [PyNum (NInt 12); PyNum (NInt 0); PyNum (NInt 255)]
                        (PyList [PyNum (NInt 12); PyNum (NInt 0); PyNum (NInt 255)])
                        (or_intror eq_refl))
                 (NInt 12) (NInt 0) (NInt 255)).
    + reflexivity.
    + simpl. lia.
    + simpl. lia.
    + simpl. lia.
  - apply (proj1 (proj1 bar_color_triple_checked
                        [PyNum (NInt 12); PyNum (NInt 0)]
                        (PyTuple [PyNum (NInt 12); PyNum (NInt 0)])
                        (or_introl eq_refl))).
    left. simpl. lia.
Defined.


Lemma empty_intervals_list_witness :
  check_intervals numpy_strict (PyList []) = Ok (IList []) /\
  group_series numpy_strict (int_series [1; 2]%Z) (PyList []) false
               (PyStr "#1776f2") = Ok ("#1776f2", []) /\
  last_upper (IList []) = Raise (IndexError [Lit "list index out of range"]) /\
  group_series numpy_strict (int_series [1; 2]%Z) (PyList []) true
               (PyStr "#1776f2")
  = Raise (IndexError [Lit "list index out of range"]).
Proof.
  apply (empty_intervals_list numpy_strict (int_series [1; 2]%Z)
                              (PyStr "#1776f2") (map NInt [1; 2]%Z) "#1776f2").
  - reflexivity.
  - reflexivity.
Defined.

(** * Further properties of the checks, the grouping and the chart *)

(** ** The series check *)




Lemma check_values_prefix (pre : list number) (tail : list pyval) (idx : nat) :
  check_values idx (map PyNum pre ++ tail)%list =
  (ns <- check_values (idx + List.length pre) tail ;; Ok (pre ++ ns)%list).
Proof.
  revert idx. induction pre as [|n pre IH]; intro idx.
  - simpl. rewrite Nat.add_0_r.
    destruct (check_values idx tail); reflexivity.
  - cbn [map List.app check_values List.length]. rewrite IH.
    replace (S idx + List.length pre)%nat with (idx + S (List.length pre))%nat by lia.
    destruct (check_values (idx + S (List.length pre)) tail); reflexivity.
Qed.

(** The first retained entry that is not a number is reported with a
    ValueError giving its type and its index among the retained entries
    (missing entries before it are not counted). *)
Theorem check_series_first_invalid
        (cells : list pyval) (pre : list number) (bad : pyval) (post : list pyval) :
  dropna cells = (map PyNum pre ++ bad :: post)%list ->
  (forall n, bad <> PyNum n) ->
  check_series (Series cells)
  = Raise (ValueError [Lit "Series values must only ";
                       Lit ("contain int or float, " ++ str_type bad ++ " ");
                       Lit ("given at index " ++ str_nat (List.length pre))]).
Proof.
  intros Hd Hbad. simpl. rewrite Hd, check_values_prefix. simpl.
  destruct bad as [|n|s|l|l|c]; try reflexivity.
  exfalso. exact (Hbad n eq_refl).
Qed.

(** ** The intervals check *)

Lemma held_row_exact (r : interval) : held_row r = true -> exact_row r = true.
Proof.
  unfold held_row, exact_row. rewrite !andb_true_iff.
  intros [H1 H2]. split; [destruct (fst r)|destruct (snd r)]; auto.
Qed.

Lemma held_rows_exact (rows : list interval) :
  forallb held_row rows = true -> forallb exact_row rows = true.
Proof.
  rewrite !forallb_forall. intros H r Hr. apply held_row_exact, H, Hr.
Qed.

Lemma py_intervals_inj (rows rows' : list interval) :
  py_intervals rows = py_intervals rows' -> rows = rows'.
Proof.
  unfold py_intervals. intro H. injection H as H. revert rows' H.
  induction rows as [|r rows IH]; intros [|r' rows'] H; try discriminate H.
  - reflexivity.
  - cbn [map] in H. injection H as H1 H2 H.
    rewrite (IH _ H). destruct r, r'. cbn [fst snd] in H1, H2.
    rewrite H1, H2. reflexivity.
Qed.

(** The intervals check leaves the empty list as it is.  A non-empty list
    of two-element lists of numbers is accepted exactly when each first
    number is below the second, and is then turned into an array of one
    dtype (here for the numbers the embedding holds as the program does);
    contiguity and overlap are not looked at, and the outcome does not
    depend on numpy's treatment of ragged lists.  Nothing else is
    accepted. *)
Theorem check_intervals_accepts (np : list pyval -> option exn) :
  check_intervals np (PyList []) = Ok (IList []) /\
  (forall rows : list interval,
      rows <> [] -> forallb held_row rows = true ->
      ((exists iv, check_intervals np (py_intervals rows) = Ok iv) <->
       well_ordered rows = true) /\
      (well_ordered rows = true ->
       check_intervals np (py_intervals rows) = Ok (IArr (Arr2 (cast_rows rows))))) /\
  (forall (intervals : pyval) (iv : ivar),
      check_intervals np intervals = Ok iv ->
      intervals = PyList [] \/
      exists rows, rows <> [] /\ intervals = py_intervals rows).
Proof.
  split; [reflexivity|]. split.
  - intros rows Hne _. split; [split|].
    + intros (iv & H). apply check_intervals_resolved in H.
      destruct H as [[H _]|(rows' & _ & Hw & E & _)].
      * destruct rows; [congruence|discriminate H].
      * apply py_intervals_inj in E. subst rows'. exact Hw.
    + intro Hw. eexists. apply check_intervals_valid; assumption.
    + intro Hw. apply check_intervals_valid; assumption.
  - intros intervals iv H. apply check_intervals_resolved in H.
    destruct H as [[-> _]|(rows & Hne & _ & -> & _)]; [left; reflexivity|].
    right. exists rows. auto.
Qed.

Lemma all_pairs_app (rows : list interval) (x : interval) (post : list pyval)
      (postrows : list interval) :
  all_pairs post = Some postrows ->
  all_pairs (map py_interval rows ++ py_interval x :: post)%list
  = Some (rows ++ x :: postrows)%list.
Proof.
  intro Hp. induction rows as [|[a b] rows IH]; simpl.
  - destruct x as [a b]. simpl. rewrite Hp. reflexivity.
  - simpl in IH. rewrite IH. reflexivity.
Qed.

Lemma nth_map_middle {A B : Type} (f : A -> B) (l l' : list A) (x : A) (d : B) :
  nth (List.length l) (map f (l ++ x :: l')%list) d = f x.
Proof.
  rewrite map_app. cbn [map].
  rewrite <- (length_map f l). apply nth_middle.
Qed.

(** An element whose two numbers are not in order, met after valid
    intervals, is reported with a ValueError giving its index; the element
    shown is the caller's list when it is the first element, and otherwise
    the row of the array built after the first valid interval, with its
    numbers converted to the array's dtype.  Stated for lists of pairs of
    numbers the embedding holds as the program does. *)
Theorem unordered_interval_reported
        (np : list pyval -> option exn) (pre : list interval) (a b : number)
        (post : list pyval) (postrows : list interval) :
  well_ordered pre = true ->
  num_lt a b = false ->
  all_pairs post = Some postrows ->
  forallb held_row (pre ++ (a, b) :: postrows) = true ->
  let t := result_type (pre ++ (a, b) :: postrows)%list in
  check_intervals np
    (PyList (map py_interval pre ++ PyList [PyNum a; PyNum b] :: post)%list)
  = Raise (ValueError
             [Lit "The 2nd value of an interval ";
              Lit ("must be greater than the 1st " ++ nl);
              Lit "--> ";
              match pre with
              | [] => Val (PyList [PyNum a; PyNum b])
              | _ :: _ => Row (cast t a, cast t b)
              end;
              Lit (" at index " ++ str_nat (List.length pre))]).
Proof.
  intros Hw Hab Hp _ t. unfold check_intervals.
  rewrite check_loop_prefix by assumption.
  destruct pre as [|p pre].
  - cbn [check_loop]. rewrite Hab. reflexivity.
  - cbn [to_array]. unfold np_array.
    change (PyList [PyNum a; PyNum b]) with (py_interval (a, b)).
    rewrite (all_pairs_app (p :: pre) (a, b) post postrows Hp).
    cbn [bind check_loop py_interval fst snd]. rewrite Hab. cbn [negb].
    unfold item_piece, cast_rows. subst t. rewrite Nat.add_0_l.
    rewrite nth_map_middle. reflexivity.
Qed.

(** ** The bar colour check *)

(** The bar colour check raises a TypeError exactly for a value that is
    neither a tuple, a list nor a string; a string is returned as it is,
    whatever it holds. *)
Theorem bar_color_type_checked :
  (forall c : pyval,
      (exists m, check_bar_color c = Raise (TypeError m)) <-> color_type c = false) /\
  (forall s : string, check_bar_color (PyStr s) = Ok s).
Proof.
  split; [|reflexivity].
  intro c. split.
  - intros (m & H). destruct c as [|n|s|l|l|cls]; try reflexivity; exfalso.
    + discriminate H.
    + simpl in H. destruct (negb (List.length l =? 3)%nat); [discriminate H|].
      destruct (forallb (fun b => b) (map rgb_ok l)); discriminate H.
    + simpl in H. destruct (negb (List.length l =? 3)%nat); [discriminate H|].
      destruct (forallb (fun b => b) (map rgb_ok l)); discriminate H.
  - intro H. destruct c as [|n|s|l|l|cls]; try discriminate H;
      eexists; reflexivity.
Qed.

(** ** The chart *)

Lemma plotly_quiet_call (plotly_raises : plotly_call -> option exn) (c : plotly_call) :
  plotly_raises c = None -> plotly plotly_raises c = Ok tt.
Proof. intro H. unfold plotly. rewrite H. reflexivity. Qed.

Lemma plotly_ok (plotly_raises : plotly_call -> option exn) (c : plotly_call) (u : unit) :
  plotly plotly_raises c = Ok u -> plotly_raises c = None.
Proof.
  unfold plotly. destruct (plotly_raises c); [discriminate|reflexivity].
Qed.

(** The chart is built exactly when the kind is known and none of the
    calls it takes raises. *)
Lemma build_figure_ok (plotly_raises : plotly_call -> option exn) (kind : string)
      (grid : bool) (color : string) (x : list string) (y : list nat) (fig : chart) :
  build_figure plotly_raises kind grid color x y = Ok fig <->
  chart_built plotly_raises kind grid color x y /\ fig = figure_of kind grid color x y.
Proof.
  unfold build_figure, chart_built, figure_of.
  destruct (String.eqb_spec kind "bar") as [->|Nb].
  - split.
    + intro H.
      destruct (plotly plotly_raises (PxBar x y)) as [[]|e] eqn:E1;
        cbn [bind] in H; [|discriminate H].
      destruct (plotly plotly_raises (UpdateTraces color)) as [[]|e] eqn:E2;
        cbn [bind] in H; [|discriminate H].
      destruct grid.
      * destruct (plotly plotly_raises UpdateYaxes) as [[]|e] eqn:E3;
          cbn [bind] in H; [|discriminate H].
        injection H as <-. split; [|reflexivity]. left.
        split; [reflexivity|]. split; [exact (plotly_ok _ _ _ E1)|].
        split; [exact (plotly_ok _ _ _ E2)|]. intros _. exact (plotly_ok _ _ _ E3).
      * cbn [bind] in H. injection H as <-. split; [|reflexivity]. left.
        split; [reflexivity|]. split; [exact (plotly_ok _ _ _ E1)|].
        split; [exact (plotly_ok _ _ _ E2)|]. discriminate.
    + intros [[(_ & H1 & H2 & H3)|(E & _)] ->]; [|discriminate E].
      rewrite (plotly_quiet_call _ _ H1), (plotly_quiet_call _ _ H2). cbn [bind].
      destruct grid; [rewrite (plotly_quiet_call _ _ (H3 eq_refl))|]; reflexivity.
  - destruct (String.eqb_spec kind "pie") as [->|Np].
    + split.
      * intro H.
        destruct (plotly plotly_raises (GoPie x y)) as [[]|e] eqn:E1;
          cbn [bind] in H; [|discriminate H].
        destruct (plotly plotly_raises UpdateLayout) as [[]|e] eqn:E2;
          cbn [bind] in H; [|discriminate H].
        injection H as <-. split; [|reflexivity]. right.
        split; [reflexivity|]. split; [exact (plotly_ok _ _ _ E1)|].
        exact (plotly_ok _ _ _ E2).
      * intros [[(E & _)|(_ & H1 & H2)] ->]; [discriminate E|].
        rewrite (plotly_quiet_call _ _ H1), (plotly_quiet_call _ _ H2). reflexivity.
    + split; [discriminate|]. intros [[(E & _)|(E & _)] _]; contradiction.
Qed.

Lemma build_figure_unknown (plotly_raises : plotly_call -> option exn) (kind : string)
      (grid : bool) (color : string) (x : list string) (y : list nat) :
  known_kind kind = false ->
  build_figure plotly_raises kind grid color x y
  = Raise (NameError [Lit ("Wrong " ++ dq ++ "kind" ++ dq
                           ++ " parameter, please check parameter")]).
Proof.
  unfold known_kind, build_figure. intro H. apply orb_false_iff in H.
  destruct H as [-> ->]. reflexivity.
Qed.

Lemma deliver_ok (plotly_raises : plotly_call -> option exn) (output : string)
      (fig : chart) (r : returned) :
  deliver plotly_raises output fig = Ok r <-> delivered plotly_raises output fig r.
Proof.
  unfold deliver, delivered.
  destruct (String.eqb_spec output "img") as [->|N1].
  - cbn [orb]. split.
    + intro H. destruct (plotly plotly_raises (ToImage fig)) as [[]|e] eqn:E;
        cbn [bind] in H; [|discriminate H].
      injection H as <-. left. split; [reflexivity|].
      split; [exact (plotly_ok _ _ _ E)|reflexivity].
    + intros [(_ & H & ->)|[(E & _)|[(E & _)|(E & _)]]]; try discriminate E.
      rewrite (plotly_quiet_call _ _ H). reflexivity.
  - destruct (String.eqb_spec output "bytes") as [->|N2].
    + cbn [orb]. split.
      * intro H. destruct (plotly plotly_raises (ToImage fig)) as [[]|e] eqn:E;
          cbn [bind] in H; [|discriminate H].
        injection H as <-. right. left. split; [reflexivity|].
        split; [exact (plotly_ok _ _ _ E)|reflexivity].
      * intros [(E & _)|[(_ & H & ->)|[(E & _)|(E & _)]]]; try discriminate E.
        rewrite (plotly_quiet_call _ _ H). reflexivity.
    + cbn [orb]. destruct (String.eqb_spec output "fig") as [->|N3].
      * split.
        -- intro H. destruct (plotly plotly_raises (Show fig)) as [[]|e] eqn:E;
             cbn [bind] in H; [|discriminate H].
           injection H as <-. right. right. left. split; [reflexivity|].
           split; [exact (plotly_ok _ _ _ E)|reflexivity].
        -- intros [(E & _)|[(E & _)|[(_ & H & ->)|(E & _)]]]; try discriminate E.
           rewrite (plotly_quiet_call _ _ H). reflexivity.
      * destruct (String.eqb_spec output "fig_obj") as [->|N4].
        -- split.
           ++ intro H. injection H as <-. right. right. right. auto.
           ++ intros [(E & _)|[(E & _)|[(E & _)|(_ & ->)]]]; try discriminate E.
              reflexivity.
        -- split; [discriminate|].
           intros [(E & _)|[(E & _)|[(E & _)|(E & _)]]]; contradiction.
Qed.

Lemma deliver_unknown (plotly_raises : plotly_call -> option exn) (output : string)
      (fig : chart) :
  known_output output = false ->
  deliver plotly_raises output fig
  = Raise (NameError [Lit ("Unrecognized " ++ dq ++ "output" ++ dq ++ " parameter")]).
Proof.
  unfold known_output, deliver. intro H.
  apply orb_false_iff in H. destruct H as [H ->].
  apply orb_false_iff in H. destruct H as [H ->].
  rewrite H. reflexivity.
Qed.

(** Errors are raised in the order of the source, whatever plotly does: an
    error of the checks or of the grouping is raised whatever the kind and
    the output; an unknown kind is reported before plotly is called and
    before the output is looked at; an error plotly raises while the chart
    is built is raised whatever the output; an unknown output is reported
    only once the chart is built. *)
Theorem plot_group_error_order
        (np : list pyval -> option exn) (plotly_raises : plotly_call -> option exn)
        (series : series_arg) (intervals : pyval)
        (higher_vals : bool) (kind : string) (grid : bool) (bar_color : pyval)
        (output : string) :
  (forall e, group_series np series intervals higher_vals bar_color = Raise e ->
             plot_group np plotly_raises series intervals higher_vals kind grid
                        bar_color output
             = Raise e) /\
  (forall g, group_series np series intervals higher_vals bar_color = Ok g ->
             known_kind kind = false ->
             plot_group np plotly_raises series intervals higher_vals kind grid
                        bar_color output
             = Raise (NameError [Lit ("Wrong " ++ dq ++ "kind" ++ dq
                                      ++ " parameter, please check parameter")])) /\
  (forall color d e,
      group_series np series intervals higher_vals bar_color = Ok (color, d) ->
      build_figure plotly_raises kind grid color (map fst d) (counts d) = Raise e ->
      plot_group np plotly_raises series intervals higher_vals kind grid
                 bar_color output
      = Raise e) /\
  (forall color d,
      group_series np series intervals higher_vals bar_color = Ok (color, d) ->
      chart_built plotly_raises kind grid color (map fst d) (counts d) ->
      known_output output = false ->
      plot_group np plotly_raises series intervals higher_vals kind grid
                 bar_color output
      = Raise (NameError [Lit ("Unrecognized " ++ dq ++ "output" ++ dq
                               ++ " parameter")])).
Proof.
  unfold plot_group. repeat split.
  - intros e ->. reflexivity.
  - intros g -> Hk. cbn [bind]. rewrite build_figure_unknown by exact Hk. reflexivity.
  - intros color d e -> Hb. cbn [bind fst snd]. unfold counts in Hb.
    rewrite Hb. reflexivity.
  - intros color d -> Hc Ho. cbn [bind fst snd].
    assert (Hb : build_figure plotly_raises kind grid color (map fst d) (counts d)
                 = Ok (figure_of kind grid color (map fst d) (counts d)))
      by (apply build_figure_ok; auto).
    unfold counts in Hb. rewrite Hb. cbn [bind]. apply deliver_unknown, Ho.
Qed.

(** The call returns exactly when the checks and the grouping succeed, the
    calls that build a chart of the kind asked for raise nothing, and the
    output is known and the call it needs raises nothing.  The labels of
    the figure are the keys of the dictionary and its values the counts, in
    the same order; a bar chart carries the checked colour and the grid
    flag, a pie chart neither.  What is returned is an image or its bytes
    (after [pio.to_image]), [None] for the output [fig] (the value of
    [fig.show()]), or the figure for [fig_obj]. *)
Theorem plot_group_chart
        (np : list pyval -> option exn) (plotly_raises : plotly_call -> option exn)
        (series : series_arg) (intervals : pyval)
        (higher_vals : bool) (kind : string) (grid : bool) (bar_color : pyval)
        (output : string) (r : returned) :
  plot_group np plotly_raises series intervals higher_vals kind grid bar_color output
  = Ok r <->
  exists color d,
    group_series np series intervals higher_vals bar_color = Ok (color, d) /\
    chart_built plotly_raises kind grid color (map fst d) (counts d) /\
    delivered plotly_raises output
              (figure_of kind grid color (map fst d) (counts d)) r.
Proof.
  unfold plot_group. split.
  - destruct (group_series np series intervals higher_vals bar_color)
      as [[color d]|e]; cbn [bind fst snd]; [|discriminate].
    fold (counts d).
    destruct (build_figure plotly_raises kind grid color (map fst d) (counts d))
      as [fig|e] eqn:Eb; cbn [bind]; [|discriminate].
    apply build_figure_ok in Eb. destruct Eb as [Hc ->].
    intro H. apply deliver_ok in H. exists color, d. auto.
  - intros (color & d & -> & Hc & Hd). cbn [bind fst snd]. fold (counts d).
    assert (Hb : build_figure plotly_raises kind grid color (map fst d) (counts d)
                 = Ok (figure_of kind grid color (map fst d) (counts d)))
      by (apply build_figure_ok; auto).
    rewrite Hb. cbn [bind]. apply deliver_ok, Hd.
Qed.

(** ** The bins *)

Lemma grouping_entry_filter (vals : list number) (iv : ivar) (higher_vals : bool)
      (d : pydict) (k : string) (part : list number) (n : nat) :
  grouping vals iv higher_vals = Ok d ->
  In (k, (part, n)) d ->
  exists p, part = filter p vals /\ n = List.length part.
Proof.
  unfold grouping.
  remember (group_loop vals (rows_of iv) []) as g eqn:Hg.
  assert (Hloop : In (k, (part, n)) g ->
                  exists p, part = filter p vals /\ n = List.length part).
  { subst g. intro H. apply group_loop_In in H.
    destruct H as [[]|(r & _ & E)].
    unfold bin_of in E. injection E as _ -> ->.
    exists (in_interval r). auto. }
  destruct higher_vals.
  - destruct (last_upper iv) as [hi|e]; cbn [bind]; [|discriminate].
    intros [= <-] H. apply dict_set_In in H. destruct H as [H|E]; [auto|].
    injection E as _ -> ->. exists (fun x => np_gt x hi). auto.
  - intros [= <-]. exact Hloop.
Qed.

Lemma group_series_grouping (np : list pyval -> option exn) (series : series_arg)
      (intervals : pyval) (higher_vals : bool) (bar_color : pyval)
      (vals : list number) (color : string) (d : pydict) :
  check_series series = Ok vals ->
  group_series np series intervals higher_vals bar_color = Ok (color, d) ->
  exists iv hv, grouping vals iv hv = Ok d /\
                (intervals <> PyNone ->
                 check_intervals np intervals = Ok iv /\ hv = higher_vals).
Proof.
  intros Hs. unfold group_series. rewrite Hs. cbn [bind].
  destruct (check_bar_color bar_color) as [col|e]; cbn [bind]; [|discriminate].
  destruct intervals as [|n|s|l|l|c];
    match goal with
    | |- context [default_intervals] =>
      destruct (default_intervals np module_ceil vals) as [[iv hv]|e];
        cbn [bind fst snd]; [|discriminate];
        destruct (grouping vals iv hv) as [d'|e] eqn:Eg; cbn [bind];
          [|discriminate];
        intros [= <- <-]; exists iv, hv; split; [exact Eg|congruence]
    | |- _ =>
      match goal with
      | |- context [check_intervals np ?i] =>
        destruct (check_intervals np i) as [iv|e] eqn:Ec;
          cbn [bind fst snd]; [|discriminate];
          destruct (grouping vals iv higher_vals) as [d'|e] eqn:Eg; cbn [bind];
            [|discriminate];
          intros [= <- <-]; exists iv, higher_vals; split; [exact Eg|auto]
      end
    end.
Qed.

(** Whatever the arguments, in a result every bin holds values of the
    retained series, in the order of the series, its count is the number
    of values it holds, and no label occurs twice. *)
Theorem bins_hold_retained_values
        (np : list pyval -> option exn) (series : series_arg) (intervals : pyval)
        (higher_vals : bool) (bar_color : pyval)
        (vals : list number) (color : string) (d : pydict) :
  check_series series = Ok vals ->
  group_series np series intervals higher_vals bar_color = Ok (color, d) ->
  NoDup (map fst d) /\
  forall k part n,
    In (k, (part, n)) d ->
    (exists p, part = filter p vals) /\ n = List.length part /\
    (forall v, In v part -> In v vals).
Proof.
  intros Hs Hg.
  destruct (group_series_grouping _ _ _ _ _ _ _ _ Hs Hg) as (iv & hv & Hgr & _).
  split; [exact (grouping_keys _ _ _ _ Hgr)|].
  intros k part n He.
  destruct (grouping_entry_filter _ _ _ _ _ _ _ Hgr He) as (p & Hp & Hn).
  split; [eauto|]. split; [exact Hn|].
  intros v Hv. rewrite Hp in Hv. apply filter_In in Hv. tauto.
Qed.

Lemma group_loop_labels (vals : list number) (rows : list interval) (d : pydict)
      (k : string) :
  In k (map fst (group_loop vals rows d)) ->
  In k (map fst d) \/ In k (map label rows).
Proof.
  intro H. apply in_map_iff in H. destruct H as ([k' b] & E & H).
  simpl in E. subst k'. apply group_loop_In in H.
  destruct H as [H|(r & Hr & E)].
  - left. apply in_map_iff. exists (k, b). auto.
  - right. injection E as -> _. apply in_map, Hr.
Qed.

(** With intervals given by the caller and [higher_vals] false, no
    overflow bin is added: no label of the result is an overflow label. *)
Theorem no_overflow_bin_unless_asked
        (np : list pyval -> option exn) (series : series_arg) (intervals : pyval)
        (bar_color : pyval) (vals : list number) (color : string) (d : pydict) :
  check_series series = Ok vals ->
  intervals <> PyNone ->
  group_series np series intervals false bar_color = Ok (color, d) ->
  forall hi : number, ~ In (overflow_label hi) (map fst d).
Proof.
  intros Hs Hn Hg hi Hin.
  destruct (group_series_grouping _ _ _ _ _ _ _ _ Hs Hg) as (iv & hv & Hgr & Hc).
  destruct (Hc Hn) as [_ ->]. unfold grouping in Hgr. injection Hgr as <-.
  apply group_loop_labels in Hin. destruct Hin as [[]|Hin].
  apply in_map_iff in Hin. destruct Hin as (r & E & _).
  exact (label_not_overflow _ _ E).
Qed.

(** ** The default mode *)

(** For every valid Series of dtype int64 or float64 whose 80th percentile,
    computed as numpy does, is above 5, the call with no intervals given
    raises NameError, whatever the other arguments and whatever plotly
    does. *)
Theorem default_mode_above_five_raises
        (np : list pyval -> option exn) (plotly_raises : plotly_call -> option exn)
        (series : series_arg)
        (higher_vals : bool) (kind : string) (grid : bool) (bar_color : pyval)
        (output : string) (vals : list number) (color : string) (P : Q) :
  check_series series = Ok vals ->
  check_bar_color bar_color = Ok color ->
  numeric_series vals = true ->
  np_percentile (map value vals) 80 = Ok P -> (5 < P)%Q ->
  plot_group np plotly_raises series PyNone higher_vals kind grid bar_color output
  = Raise (NameError [Lit "name 'ceil' is not defined"]).
Proof.
  intros Hs Hb _ HP Hlt. unfold plot_group.
  rewrite (group_series_default np series higher_vals bar_color vals color Hs Hb).
  rewrite (default_intervals_above np vals P HP Hlt). reflexivity.
Qed.

Lemma map_value_floats (vals : list number) (x : Q) :
  forallb exact vals = true -> In x (map value vals) -> (fl x == x)%Q.
Proof.
  intros Hv Hx. destruct (map_value_In _ _ Hx) as (v & Hin & ->).
  apply value_exact_float, (exact_In vals v Hv Hin).
Qed.

(** The percentile of a series of values of [0, 5] is in [0, 5]. *)
Lemma np_percentile_unit_range (vals : list number) :
  forallb exact vals = true -> vals <> [] ->
  (forall v, In v vals -> (0 <= value v)%Q /\ (value v <= 5)%Q) ->
  exists P, np_percentile (map value vals) 80 = Ok P /\ (0 <= P)%Q /\ (P <= 5)%Q.
Proof.
  intros Hv Hne Hall.
  destruct (np_percentile_floats (map value vals)) as (P & lo & hi & HP & Hlo & Hhi & H1 & H2).
  - destruct vals; [congruence|discriminate].
  - intros x Hx. exact (map_value_floats vals x Hv Hx).
  - exists P. split; [exact HP|].
    destruct (map_value_In _ _ Hlo) as (v & Hin & ->).
    destruct (map_value_In _ _ Hhi) as (w & Hin' & ->).
    destruct (Hall v Hin) as [Hv0 _]. destruct (Hall w Hin') as [_ Hw5].
    split; [exact (Qle_trans _ _ _ Hv0 H1)|exact (Qle_trans _ _ _ H2 Hw5)].
Qed.

(** When a Series of dtype int64 or float64 has a retained value and all
    its retained values are in [0, 5], the call with no intervals given
    resolves its intervals (the percentile is in [0, 5]): the unit is a
    float of three decimals from 0.0 to 1.0 and the result has the overflow
    bin, whatever [higher_vals]: the values above five units. *)
Theorem small_values_default_mode_returns
        (np : list pyval -> option exn) (series : series_arg)
        (higher_vals : bool) (bar_color : pyval)
        (vals : list number) (color : string) :
  check_series series = Ok vals ->
  check_bar_color bar_color = Ok color ->
  numeric_series vals = true ->
  vals <> [] ->
  (forall v, In v vals -> (0 <= value v)%Q /\ (value v <= 5)%Q) ->
  exists d k,
    (0 <= k <= 1000)%Z /\
    group_series np series PyNone higher_vals bar_color = Ok (color, d) /\
    dict_get (overflow_label (milli (5 * k))) d
    = Some (exact_overflow vals (milli (5 * k))).
Proof.
  intros Hs Hb Hn Hne Hall.
  pose proof (numeric_series_exact vals Hn) as Hv.
  destruct (np_percentile_unit_range vals Hv Hne Hall) as (P & HP & H0 & H5).
  destruct (group_series_small np series higher_vals bar_color vals color P
                               Hs Hb HP H0 H5) as (Hk & _ & Eg).
  set (k := unit_milli P) in *.
  assert (Hg : grouping vals (IArr (Arr2 (default_rows k))) true
               = Ok (dict_set (overflow_label (milli (5 * k)))
                              (overflow_bin vals (milli (5 * k)))
                              (group_loop vals (default_rows k) [])))
    by (unfold default_rows; rewrite grouping_rows; reflexivity).
  eexists. exists k. split; [exact Hk|]. rewrite Eg, Hg. cbn [bind].
  split; [reflexivity|]. rewrite dict_get_set_same.
  rewrite (overflow_bin_above vals (milli (5 * k)) Hv eq_refl). reflexivity.
Qed.


(** With a percentile [P] of [0, 5] the overflow bin starts five rounded
    units above 0, which is within 0.0026 of [P] (0.0025 for the rounding
    of the unit to three decimals, the rest for the roundings of
    binary64). *)
Theorem default_overflow_threshold
        (np : list pyval -> option exn) (series : series_arg)
        (higher_vals : bool) (bar_color : pyval)
        (vals : list number) (color : string) (P : Q) :
  check_series series = Ok vals ->
  check_bar_color bar_color = Ok color ->
  numeric_series vals = true ->
  np_percentile (map value vals) 80 = Ok P -> (0 <= P)%Q -> (P <= 5)%Q ->
  exists d hi,
    group_series np series PyNone higher_vals bar_color = Ok (color, d) /\
    dict_get (overflow_label hi) d = Some (exact_overflow vals hi) /\
    (P - (13 # 5000) <= value hi)%Q /\ (value hi <= P + (13 # 5000))%Q.
Proof.
  intros Hs Hb Hn HP H0 H5.
  pose proof (numeric_series_exact vals Hn) as Hv.
  destruct (group_series_small np series higher_vals bar_color vals color P
                               Hs Hb HP H0 H5) as (Hk & _ & Eg).
  assert (Hg : grouping vals (IArr (Arr2 (default_rows (unit_milli P)))) true
               = Ok (dict_set (overflow_label (milli (5 * unit_milli P)))
                              (overflow_bin vals (milli (5 * unit_milli P)))
                              (group_loop vals (default_rows (unit_milli P)) [])))
    by (unfold default_rows; rewrite grouping_rows; reflexivity).
  eexists. exists (milli (5 * unit_milli P)). rewrite Eg, Hg. cbn [bind].
  split; [reflexivity|]. split.
  - rewrite dict_get_set_same.
    rewrite (overflow_bin_above vals (milli (5 * unit_milli P)) Hv eq_refl).
    reflexivity.
  - rewrite milli_value. unfold unit_milli in *.
    assert (Hq0 : (0 <= P / 5)%Q) by (apply Qle_shift_div_l; [reflexivity|lra]).
    assert (Eq : (P / 5 == P * (1 # 5))%Q) by (field; discriminate).
    destruct (fl_error (P / 5) Hq0) as [X1 X2].
    pose proof (fl_nonneg _ Hq0) as Hx0.
    set (x := fl (P / 5)) in *.
    assert (Hm0 : (0 <= x * 1000)%Q) by lra.
    destruct (fl_error (x * 1000) Hm0) as [Y1 Y2].
    set (y := fl (x * 1000)) in *.
    destruct (rint_near y) as [K1 K2].
    set (k := rint y) in *.
    assert (Ek : ((5 * k) # 1000 == inject_Z k * (1 # 200))%Q).
    { unfold Qeq, Qmult, inject_Z. cbn [Qnum Qden]. lia. }
    assert (Hk0 : (0 <= inject_Z k)%Q).
    { change 0%Q with (inject_Z 0). rewrite <- Zle_Qle. lia. }
    assert (Hh0 : (0 <= (5 * k) # 1000)%Q) by (rewrite Ek; lra).
    destruct (fl_error ((5 * k) # 1000) Hh0) as [Z1 Z2].
    set (h := fl ((5 * k) # 1000)) in *.
    rewrite Ek in Z1, Z2. rewrite Eq in X1, X2.
    assert (Hk1 : (inject_Z k <= 1000)%Q).
    { change 1000%Q with (inject_Z 1000). rewrite <- Zle_Qle. lia. }
    unfold eps in *. split; lra.
Qed.

(** ** Labels with the caller's intervals *)

Lemma str_float_of_Z (z : Z) : str_float (float_of_Z z) = str_Z z ++ ".0".
Proof.
  unfold str_float, float_of_Z, str_Z. cbn [f_neg f_int f_frac].
  destruct z as [|p|p]; cbn [Z.ltb Z.compare Z.abs_N Z.to_int NilEmpty.string_of_int
                            N.to_uint]; try reflexivity.
Qed.

Lemma result_type_float (rows : list interval) (r : interval) :
  In r rows -> dtype_of (fst r) = DFloat \/ dtype_of (snd r) = DFloat ->
  result_type rows = DFloat.
Proof.
  induction rows as [|r0 rows IH]; intros Hin Hf; [destruct Hin|].
  cbn [result_type fold_right].
  destruct Hin as [->|Hin].
  - destruct Hf as [-> | ->];
      destruct (dtype_of (fst r)), (dtype_of (snd r));
      destruct (fold_right _ _ _); reflexivity.
  - change (fold_right _ DBool rows) with (result_type rows).
    rewrite (IH Hin Hf).
    destruct (dtype_of (fst r0)), (dtype_of (snd r0)); reflexivity.
Qed.

Lemma dict_get_absent (k : string) (d : pydict) :
  ~ In k (map fst d) -> dict_get k d = None.
Proof.
  induction d as [|[k0 v0] d IH]; simpl; intro H; [reflexivity|].
  destruct (String.eqb_spec k0 k); [tauto|]. apply IH. tauto.
Qed.

Lemma grouping_labels (vals : list number) (r : interval) (rest : list interval)
      (higher_vals : bool) (d : pydict) (k : string) :
  grouping vals (IArr (Arr2 (r :: rest))) higher_vals = Ok d ->
  In k (map fst d) ->
  In k (map label (r :: rest)) \/ k = overflow_label (snd (last rest r)).
Proof.
  intros Hg Hk. apply in_map_iff in Hk. destruct Hk as ([k' b] & E & He).
  simpl in E. subst k'.
  destruct (grouping_entries _ _ _ _ _ _ Hg He) as [(r' & Hr' & E)|[_ E]].
  - left. injection E as -> _. apply in_map, Hr'.
  - right. congruence.
Qed.

Lemma plain_rows_In (rows : list interval) (r : interval) :
  forallb plain_row rows = true -> In r rows -> plain_row r = true.
Proof. rewrite forallb_forall. auto. Qed.

(** When one bound of the caller's (valid) intervals is a float, the whole
    array is a float array: an interval given with two ints [a] and [b]
    has its bin under the label [a.0-b.0], holding the values of
    [(a, b]], and there is no bin under [a-b].  Stated for numbers that
    binary64 holds as they are given. *)
Theorem float_bound_makes_float_labels
        (np : list pyval -> option exn) (series : series_arg)
        (rows : list interval) (higher_vals : bool) (bar_color : pyval)
        (vals : list number) (color : string) (r : interval) (a b : Z) :
  check_series series = Ok vals ->
  check_bar_color bar_color = Ok color ->
  forallb plain_value vals = true -> forallb plain_row rows = true ->
  well_ordered rows = true ->
  In r rows -> dtype_of (fst r) = DFloat \/ dtype_of (snd r) = DFloat ->
  In (NInt a, NInt b) rows ->
  exists d,
    group_series np series (py_intervals rows) higher_vals bar_color
    = Ok (color, d) /\
    dict_get (str_Z a ++ ".0-" ++ str_Z b ++ ".0") d
    = Some (exact_bin vals (NInt a, NInt b)) /\
    dict_get (str_Z a ++ "-" ++ str_Z b) d = None.
Proof.
  intros Hs Hb Hv Hp Hw Hr Hf Hab. apply plain_values_exact in Hv.
  assert (Hne : rows <> []) by (intro E; rewrite E in Hr; destruct Hr).
  rewrite (group_series_custom np series rows higher_vals bar_color vals color)
    by assumption.
  pose proof (result_type_float rows r Hr Hf) as Ht.
  pose proof (plain_rows_In rows _ Hp Hab) as Hpab.
  unfold plain_row in Hpab. cbn [fst snd plain_bound] in Hpab.
  apply andb_true_iff in Hpab. destruct Hpab as [Ha Hbb].
  assert (Hin : In (NFloat (float_of_Z a), NFloat (float_of_Z b)) (cast_rows rows)).
  { unfold cast_rows. rewrite Ht.
    assert (Ecast : (cast DFloat (NInt a), cast DFloat (NInt b))
                    = (NFloat (float_of_Z a), NFloat (float_of_Z b)))
      by (cbn [cast]; rewrite !round_int_exact by assumption; reflexivity).
    rewrite <- Ecast.
    exact (in_map (fun r0 : interval => (cast DFloat (fst r0), cast DFloat (snd r0)))
                  rows (NInt a, NInt b) Hab). }
  assert (Hall : forall r', In r' (cast_rows rows) ->
                            exists f g, r' = (NFloat f, NFloat g)).
  { unfold cast_rows. rewrite Ht. intros r' Hr'. apply in_map_iff in Hr'.
    destruct Hr' as ([x y] & <- & _). cbn [fst snd].
    destruct x, y; cbn [cast]; eauto. }
  destruct (cast_rows rows) as [|r0 rest] eqn:Ec; [destruct Hin|].
  rewrite grouping_rows. cbn [bind]. eexists. split; [reflexivity|].
  assert (Hg : grouping vals (IArr (Arr2 (r0 :: rest))) higher_vals
               = Ok (if higher_vals
                     then dict_set (overflow_label (snd (last rest r0)))
                                   (overflow_bin vals (snd (last rest r0)))
                                   (group_loop vals (r0 :: rest) [])
                     else group_loop vals (r0 :: rest) []))
    by apply grouping_rows.
  split.
  - pose proof (grouping_row_entry _ _ _ _ _ _ Hg Hin) as E.
    unfold label in E. cbn [fst snd str_number] in E.
    rewrite !str_float_of_Z, string_app_assoc in E.
    cbn [String.append] in E. cbn [String.append].
    rewrite E. f_equal.
    rewrite (bin_of_between vals (NFloat (float_of_Z a), NFloat (float_of_Z b))
                            Hv eq_refl).
    unfold exact_bin. cbn [fst snd].
    rewrite (filter_ext (between (NFloat (float_of_Z a)) (NFloat (float_of_Z b)))
                        (between (NInt a) (NInt b))); [reflexivity|].
    intro v. apply between_ext; apply value_float_of_Z; assumption.
  - apply dict_get_absent. intro Hk.
    destruct (grouping_labels _ _ _ _ _ _ Hg Hk) as [Hl|Ho].
    + apply in_map_iff in Hl. destruct Hl as (r' & E & Hr').
      change (str_Z a ++ "-" ++ str_Z b) with (label (NInt a, NInt b)) in E.
      apply label_inj in E. subst r'.
      destruct (Hall _ Hr') as (f & g & E). discriminate E.
    + change (str_Z a ++ "-" ++ str_Z b) with (label (NInt a, NInt b)) in Ho.
      exact (label_not_overflow _ _ Ho).
Qed.




(** ** The shape of the default result *)

Lemma unit_milli_le (P P' : Q) : (P <= P')%Q -> (unit_milli P <= unit_milli P')%Z.
Proof.
  intro H. unfold unit_milli. apply rint_le, fl_le.
  assert (Hq : (P / 5 <= P' / 5)%Q).
  { unfold Qdiv. apply Qmult_le_compat_r; [exact H|discriminate]. }
  pose proof (fl_le _ _ Hq). lra.
Qed.

(** With a percentile from 0 to 0.002 the unit rounds to 0.0: the five
    intervals are all [[0.0, 0.0]] and make one empty bin, and the result
    has two bins, [0.0-0.0] and the overflow bin [+0.0] with every retained
    value above 0. *)
Theorem tiny_percentile_two_bins
        (np : list pyval -> option exn) (series : series_arg)
        (higher_vals : bool) (bar_color : pyval)
        (vals : list number) (color : string) (P : Q) :
  check_series series = Ok vals ->
  check_bar_color bar_color = Ok color ->
  numeric_series vals = true ->
  np_percentile (map value vals) 80 = Ok P ->
  (0 <= P)%Q -> (P <= 1 # 500)%Q ->
  group_series np series PyNone higher_vals bar_color
  = Ok (color,
        [("0.0-0.0", ([], 0%nat));
         ("+0.0", (filter (above (NInt 0)) vals,
                   List.length (filter (above (NInt 0)) vals)))]).
Proof.
  intros Hs Hb Hn HP H0 H1.
  pose proof (numeric_series_exact vals Hn) as Hv.
  assert (H5 : (P <= 5)%Q) by lra.
  destruct (group_series_small np series higher_vals bar_color vals color P
                               Hs Hb HP H0 H5) as (Hk & _ & Eg).
  assert (Eu : unit_milli P = 0%Z).
  { pose proof (unit_milli_le P (1 # 500) H1) as Hle.
    assert (E : unit_milli (1 # 500) = 0%Z) by (vm_compute; reflexivity).
    lia. }
  rewrite Eu in Eg. rewrite Eg.
  change (default_rows 0) with ((milli 0, milli 0) :: repeat (milli 0, milli 0) 4).
  rewrite grouping_repeat. cbn [bind snd].
  rewrite (bin_of_between vals (milli 0, milli 0) Hv eq_refl).
  rewrite (overflow_bin_above vals (milli 0) Hv eq_refl).
  cbn [fst snd]. rewrite between_empty.
  rewrite (above_ext (milli 0) (NInt 0) vals milli_zero). reflexivity.
Qed.

(** With a percentile from 0.003 to 5 the rounded unit is positive and the
    result has six bins: those of the five contiguous intervals that start
    at 0, one unit wide each, in order, then the overflow bin. *)
Theorem default_six_bins
        (np : list pyval -> option exn) (series : series_arg)
        (higher_vals : bool) (bar_color : pyval)
        (vals : list number) (color : string) (P : Q) :
  check_series series = Ok vals ->
  check_bar_color bar_color = Ok color ->
  numeric_series vals = true ->
  np_percentile (map value vals) 80 = Ok P ->
  (3 # 1000 <= P)%Q -> (P <= 5)%Q ->
  exists u : Z,
    (0 < u <= 1000)%Z /\ round3 (fl (P / 5)) = float_of_milli u /\
    group_series np series PyNone higher_vals bar_color
    = Ok (color,
          exact_entries vals
            [(milli 0, milli u); (milli u, milli (2 * u));
             (milli (2 * u), milli (3 * u)); (milli (3 * u), milli (4 * u));
             (milli (4 * u), milli (5 * u))]
          ++ [(overflow_label (milli (5 * u)),
               exact_overflow vals (milli (5 * u)))])%list.
Proof.
  intros Hs Hb Hn HP H0 H5.
  pose proof (numeric_series_exact vals Hn) as Hv.
  assert (H0' : (0 <= P)%Q) by lra.
  destruct (group_series_small np series higher_vals bar_color vals color P
                               Hs Hb HP H0' H5) as (Hk & Eu & Eg).
  assert (Hu : (0 < unit_milli P)%Z).
  { pose proof (unit_milli_le (3 # 1000) P H0) as Hle.
    assert (E : unit_milli (3 # 1000) = 1%Z) by (vm_compute; reflexivity).
    lia. }
  exists (unit_milli P). set (u := unit_milli P) in *.
  split; [lia|]. split; [exact Eu|]. rewrite Eg.
  assert (Hw : well_ordered (default_rows u) = true)
    by (apply default_rows_ordered; lia).
  pose proof (default_rows_contiguous u) as Hc.
  pose proof (ascending_NoDup _ Hw (contiguous_ascending _ Hc)) as ND.
  pose proof (default_rows_exact u) as He.
  unfold default_rows in Hw, ND, He.
  pose proof (grouping_distinct_exact vals _ _ true Hv He ND) as Hg.
  etransitivity;
    [apply (f_equal (fun g : result pydict => d <- g ;; Ok (color, d))); exact Hg|].
  reflexivity.
Qed.

(** ** A series with no retained value *)


(** ** The roundings of binary64 in the default mode *)

(** Three series where the roundings of binary64 decide the outcome.  For
    [1.4, 5.9] the interpolated percentile is 5.000000000000001, above 5,
    and the call raises NameError.  For [4.1, 5.2250000000000005] it is
    exactly 5.0 and the call returns the bins of the unit 1.0.  For
    [0.0325] the fifth of the percentile times 1000 is 6.500000000000001,
    so the unit is 0.007 and the value is in the bin [0.028-0.035]. *)
Theorem binary64_default_mode_examples :
  forall (np : list pyval -> option exn) (plotly_raises : plotly_call -> option exn)
         (higher_vals : bool) (kind : string) (grid : bool) (output : string),
    (np_percentile (map value [NFloat (float_lit 1 "4"); NFloat (float_lit 5 "9")]) 80
     = Ok (5629499534213121 # 1125899906842624) /\
     (5 < 5629499534213121 # 1125899906842624)%Q /\
     plot_group np plotly_raises (float_series [float_lit 1 "4"; float_lit 5 "9"])
                PyNone higher_vals kind grid (PyStr "#1776f2") output
     = Raise (NameError [Lit "name 'ceil' is not defined"])) /\
    (np_percentile (map value [NFloat (float_lit 4 "1");
                               NFloat (float_lit 5 "2250000000000005")]) 80
     = Ok 5%Q /\
     group_series np (float_series [float_lit 4 "1"; float_lit 5 "2250000000000005"])
                  PyNone higher_vals (PyStr "#1776f2")
     = Ok ("#1776f2",
           [("0.0-1.0", ([], 0%nat)); ("1.0-2.0", ([], 0%nat));
            ("2.0-3.0", ([], 0%nat)); ("3.0-4.0", ([], 0%nat));
            ("4.0-5.0", ([NFloat (float_lit 4 "1")], 1%nat));
            ("+5.0", ([NFloat (float_lit 5 "2250000000000005")], 1%nat))])) /\
    (round3 (fl (value (NFloat (float_lit 0 "0325")) / 5)) = float_lit 0 "007" /\
     group_series np (float_series [float_lit 0 "0325"])
                  PyNone higher_vals (PyStr "#1776f2")
     = Ok ("#1776f2",
           [("0.0-0.007", ([], 0%nat)); ("0.007-0.014", ([], 0%nat));
            ("0.014-0.021", ([], 0%nat)); ("0.021-0.028", ([], 0%nat));
            ("0.028-0.035", ([NFloat (float_lit 0 "0325")], 1%nat));
            ("+0.035", ([], 0%nat))])).
Proof.
  intros np plotly_raises higher_vals kind grid output.
  split; [|split].
  - split; [vm_compute; reflexivity|]. split; [vm_compute; reflexivity|].
    assert (E : group_series np (float_series [float_lit 1 "4"; float_lit 5 "9"])
                             PyNone higher_vals (PyStr "#1776f2")
                = Raise (NameError [Lit "name 'ceil' is not defined"]))
      by (vm_compute; reflexivity).
    unfold plot_group. rewrite E. reflexivity.
  - split; vm_compute; reflexivity.
  - split; vm_compute; reflexivity.
Qed.

(** ** The further properties at concrete inputs *)


Lemma check_series_first_invalid_witness :
  check_series (Series [PyNum (NInt 1); PyNone; PyStr "a"; PyNum (NInt 3)])
  = Raise (ValueError [Lit "Series values must only ";
                       Lit "contain int or float, <class 'str'> ";
                       Lit "given at index 1"]).
Proof.
  apply (check_series_first_invalid
           [PyNum (NInt 1); PyNone; PyStr "a"; PyNum (NInt 3)]
           [NInt 1] (PyStr "a") [PyNum (NInt 3)]).
  - reflexivity.
  - discriminate.
Defined.

Lemma check_intervals_accepts_witness :
  check_intervals numpy_strict
    (py_intervals [(NInt 0, NInt 10); (NInt 5, NInt 30)])
  = Ok (IArr (Arr2 (cast_rows [(NInt 0, NInt 10); (NInt 5, NInt 30)]))).
Proof.
  apply (proj2 (proj1 (proj2 (check_intervals_accepts numpy_strict))
                      [(NInt 0, NInt 10); (NInt 5, NInt 30)]
                      ltac:(discriminate) eq_refl)).
  reflexivity.
Defined.

Lemma unordered_interval_reported_witness :
  check_intervals numpy_strict
    (PyList [PyList [PyNum (NInt 0); PyNum (NInt 10)];
             PyList [PyNum (NInt 20); PyNum (NFloat (float_lit 15 "5"))]])
  = Raise (ValueError
             [Lit "The 2nd value of an interval ";
              Lit ("must be greater than the 1st " ++ nl);
              Lit "--> ";
              Row (NFloat (float_lit 20 "0"), NFloat (float_lit 15 "5"));
              Lit " at index 1"]).
Proof.
  apply (unordered_interval_reported
           numpy_strict [(NInt 0, NInt 10)]
           (NInt 20) (NFloat (float_lit 15 "5")) [] []).
  - reflexivity.
  - reflexivity.
  - reflexivity.
  - reflexivity.
Defined.

Lemma bar_color_type_checked_witness :
  exists m, check_bar_color (PyNum (NInt 3)) = Raise (TypeError m).
Proof.
  apply (proj2 (proj1 bar_color_type_checked (PyNum (NInt 3)))).
  reflexivity.
Defined.

Lemma plot_group_error_order_witness :
  plot_group numpy_strict plotly_quiet (int_series [5; 15; 25]%Z)
             (py_intervals [(NInt 0, NInt 10); (NInt 10, NInt 20)])
             true "line" false (PyStr "#1776f2") "html"
  = Raise (NameError [Lit ("Wrong " ++ dq ++ "kind" ++ dq
                           ++ " parameter, please check parameter")]).
Proof.
  apply (proj1 (proj2 (plot_group_error_order
                         numpy_strict plotly_quiet (int_series [5; 15; 25]%Z)
                         (py_intervals [(NInt 0, NInt 10); (NInt 10, NInt 20)])
                         true "line" false (PyStr "#1776f2") "html"))
               ("#1776f2",
                [("0-10", ([NInt 5], 1%nat)); ("10-20", ([NInt 15], 1%nat));
                 ("+20", ([NInt 25], 1%nat))])).
  - reflexivity.
  - reflexivity.
Defined.

Lemma plot_group_chart_witness :
  plot_group numpy_strict plotly_quiet (int_series [5; 15; 25]%Z)
             (py_intervals [(NInt 0, NInt 10); (NInt 10, NInt 20)])
             true "pie" true (PyStr "#1776f2") "fig"
  = Ok RNone.
Proof.
  apply (proj2 (plot_group_chart
                  numpy_strict plotly_quiet (int_series [5; 15; 25]%Z)
                  (py_intervals [(NInt 0, NInt 10); (NInt 10, NInt 20)])
                  true "pie" true (PyStr "#1776f2") "fig" RNone)).
  exists "#1776f2",
         [("0-10", ([NInt 5], 1%nat)); ("10-20", ([NInt 15], 1%nat));
          ("+20", ([NInt 25], 1%nat))].
  split; [reflexivity|]. split.
  - right. split; [reflexivity|]. split; reflexivity.
  - right. right. left. split; [reflexivity|]. split; reflexivity.
Defined.

Lemma bins_hold_retained_values_witness :
  NoDup ["0-10"; "10-20"; "+20"] /\
  forall k part n,
    In (k, (part, n))
       [("0-10", ([NInt 5], 1%nat)); ("10-20", ([NInt 15], 1%nat));
        ("+20", ([NInt 25], 1%nat))] ->
    (exists p, part = filter p (map NInt [5; 15; 25]%Z)) /\ n = List.length part /\
    (forall v, In v part -> In v (map NInt [5; 15; 25]%Z)).
Proof.
  apply (bins_hold_retained_values
           numpy_strict (int_series [5; 15; 25]%Z)
           (py_intervals [(NInt 0, NInt 10); (NInt 10, NInt 20)])
           true (PyStr "#1776f2") (map NInt [5; 15; 25]%Z) "#1776f2"
           [("0-10", ([NInt 5], 1%nat)); ("10-20", ([NInt 15], 1%nat));
            ("+20", ([NInt 25], 1%nat))]).
  - reflexivity.
  - reflexivity.
Defined.

Lemma no_overflow_bin_unless_asked_witness :
  ~ In (overflow_label (NInt 20)) ["0-10"; "10-20"].
Proof.
  refine (no_overflow_bin_unless_asked
            numpy_strict (int_series [5; 15; 25]%Z)
            (py_intervals [(NInt 0, NInt 10); (NInt 10, NInt 20)])
            (PyStr "#1776f2") (map NInt [5; 15; 25]%Z) "#1776f2"
            [("0-10", ([NInt 5], 1%nat)); ("10-20", ([NInt 15], 1%nat))]
            _ _ _ (NInt 20)).
  - reflexivity.
  - discriminate.
  - reflexivity.
Defined.

Lemma default_mode_above_five_raises_witness :
  plot_group numpy_strict plotly_quiet
             (float_series [float_lit 1 "4"; float_lit 5 "9"]) PyNone false
             "bar" false (PyStr "#1776f2") "fig"
  = Raise (NameError [Lit "name 'ceil' is not defined"]).
Proof.
  apply (default_mode_above_five_raises
           numpy_strict plotly_quiet
           (float_series [float_lit 1 "4"; float_lit 5 "9"]) false
           "bar" false (PyStr "#1776f2") "fig"
           [NFloat (float_lit 1 "4"); NFloat (float_lit 5 "9")] "#1776f2"
           (5629499534213121 # 1125899906842624)).
  - reflexivity.
  - reflexivity.
  - vm_compute. reflexivity.
  - vm_compute. reflexivity.
  - vm_compute. reflexivity.
Defined.

Lemma small_values_default_mode_returns_witness :
  exists d k,
    (0 <= k <= 1000)%Z /\
    group_series numpy_strict (int_series [1; 2; 3]%Z) PyNone false (PyStr "#1776f2")
    = Ok ("#1776f2", d) /\
    dict_get (overflow_label (milli (5 * k))) d
    = Some (exact_overflow (map NInt [1; 2; 3]%Z) (milli (5 * k))).
Proof.
  apply (small_values_default_mode_returns
           numpy_strict (int_series [1; 2; 3]%Z) false (PyStr "#1776f2")
           (map NInt [1; 2; 3]%Z) "#1776f2").
  - reflexivity.
  - reflexivity.
  - reflexivity.
  - discriminate.
  - intros v [<-|[<-|[<-|[]]]]; split; unfold Qle; simpl; lia.
Defined.


Lemma default_overflow_threshold_witness :
  exists d hi,
    group_series numpy_strict (int_series [1; 2; 3; 4; 5; 100]%Z) PyNone false
                 (PyStr "#1776f2") = Ok ("#1776f2", d) /\
    dict_get (overflow_label hi) d
    = Some (exact_overflow (map NInt [1; 2; 3; 4; 5; 100]%Z) hi) /\
    (5 - (13 # 5000) <= value hi)%Q /\ (value hi <= 5 + (13 # 5000))%Q.
Proof.
  apply (default_overflow_threshold
           numpy_strict (int_series [1; 2; 3; 4; 5; 100]%Z) false (PyStr "#1776f2")
           (map NInt [1; 2; 3; 4; 5; 100]%Z) "#1776f2" 5%Q).
  - reflexivity.
  - reflexivity.
  - reflexivity.
  - vm_compute. reflexivity.
  - unfold Qle. simpl. lia.
  - unfold Qle. simpl. lia.
Defined.

Lemma float_bound_makes_float_labels_witness :
  exists d,
    group_series numpy_strict (int_series [5; 15; 25]%Z)
                 (py_intervals [(NInt 0, NInt 10);
                                (NInt 10, NFloat (float_lit 20 "5"))])
                 false (PyStr "#1776f2") = Ok ("#1776f2", d) /\
    dict_get "0.0-10.0" d
    = Some (exact_bin (map NInt [5; 15; 25]%Z) (NInt 0, NInt 10)) /\
    dict_get "0-10" d = None.
Proof.
  apply (float_bound_makes_float_labels
           numpy_strict (int_series [5; 15; 25]%Z)
           [(NInt 0, NInt 10); (NInt 10, NFloat (float_lit 20 "5"))]
           false (PyStr "#1776f2") (map NInt [5; 15; 25]%Z) "#1776f2"
           (NInt 10, NFloat (float_lit 20 "5")) 0%Z 10%Z).
  - reflexivity.
  - reflexivity.
  - reflexivity.
  - vm_compute. reflexivity.
  - reflexivity.
  - simpl. right. left. reflexivity.
  - right. reflexivity.
  - simpl. left. reflexivity.
Defined.


Lemma tiny_percentile_two_bins_witness :
  group_series numpy_strict (int_series [0; 0; 0; 0; 0; 0; 3]%Z) PyNone false
               (PyStr "#1776f2")
  = Ok ("#1776f2", [("0.0-0.0", ([], 0%nat)); ("+0.0", ([NInt 3], 1%nat))]).
Proof.
  apply (tiny_percentile_two_bins
           numpy_strict (int_series [0; 0; 0; 0; 0; 0; 3]%Z) false (PyStr "#1776f2")
           (map NInt [0; 0; 0; 0; 0; 0; 3]%Z) "#1776f2" 0%Q).
  - reflexivity.
  - reflexivity.
  - reflexivity.
  - vm_compute. reflexivity.
  - unfold Qle. simpl. lia.
  - unfold Qle. simpl. lia.
Defined.

Lemma default_six_bins_witness :
  exists u : Z,
    (0 < u <= 1000)%Z /\ round3 (fl (5 / 5)) = float_of_milli u /\
    group_series numpy_strict (int_series [1; 2; 3; 4; 5; 100]%Z) PyNone false
                 (PyStr "#1776f2")
    = Ok ("#1776f2",
          exact_entries (map NInt [1; 2; 3; 4; 5; 100]%Z)
            [(milli 0, milli u); (milli u, milli (2 * u));
             (milli (2 * u), milli (3 * u)); (milli (3 * u), milli (4 * u));
             (milli (4 * u), milli (5 * u))]
          ++ [(overflow_label (milli (5 * u)),
               exact_overflow (map NInt [1; 2; 3; 4; 5; 100]%Z) (milli (5 * u)))])%list.
Proof.
  apply (default_six_bins
           numpy_strict (int_series [1; 2; 3; 4; 5; 100]%Z) false (PyStr "#1776f2")
           (map NInt [1; 2; 3; 4; 5; 100]%Z) "#1776f2" 5%Q).
  - reflexivity.
  - reflexivity.
  - reflexivity.
  - vm_compute. reflexivity.
  - unfold Qle. simpl. lia.
  - unfold Qle. simpl. lia.
Defined.

